(** * koishi-plugin-magnet-whatslinkinfo: the resolution pipeline of [src/index.ts]

    A shallow embedding of the plugin's middleware, of its two local magnet
    decoders, of [formatBytes] and of [formatApiResponse], with the
    properties of the specification stated over it.

    Representation choices, valid for the whole file:
    - a JavaScript string is represented by its UTF-8 encoding, a Rocq
      [string] (a list of bytes).  Every pattern the source searches for is
      ASCII, so [startsWith], [includes], [split] and [substring] at an ASCII
      boundary act on the bytes as they act on the code units;
    - a JavaScript number is an exact integer or [NaN]; the rounding of
      doubles is not modelled (sizes and counts are integers in the data
      model);
    - effects are a trace of [event]s written by a small monad that also
      carries JavaScript exceptions. *)

From Stdlib Require Import ZArith List String Ascii Bool Lia DecimalString.
Import ListNotations.
Local Open Scope string_scope.
Local Open Scope Z_scope.

(** ** Strings *)

Module Str.

Definition code (c : ascii) : nat := nat_of_ascii c.

Definition is_empty (s : string) : bool :=
  match s with EmptyString => true | String _ _ => false end.

(** [s.startsWith(p)] *)
Definition startsWith (s p : string) : bool := String.prefix p s.

(** [s.substring(n)] *)
Fixpoint drop (n : nat) (s : string) : string :=
  match n, s with
  | O, _ => s
  | S _, EmptyString => EmptyString
  | S n', String _ s' => drop n' s'
  end.

(** [s.includes(p)] *)
Fixpoint includes (s p : string) : bool :=
  startsWith s p ||
  match s with
  | EmptyString => false
  | String _ s' => includes s' p
  end.

(** The part of [s] before the first occurrence of the character [sep], and
    the part after it when there is one. *)
Fixpoint cut (sep : ascii) (s : string) : string * option string :=
  match s with
  | EmptyString => (EmptyString, None)
  | String c s' =>
      if Ascii.eqb c sep then (EmptyString, Some s')
      else let (a, b) := cut sep s' in (String c a, b)
  end.

(** [s.split(sep)] for a one-character separator: never an empty list. *)
Fixpoint split (sep : ascii) (s : string) : list string :=
  match s with
  | EmptyString => [EmptyString]
  | String c s' =>
      if Ascii.eqb c sep then EmptyString :: split sep s'
      else match split sep s' with
           | [] => [String c EmptyString]
           | w :: ws => String c w :: ws
           end
  end.

Definition lower_char (c : ascii) : ascii :=
  let n := code c in
  if (65 <=? n)%nat && (n <=? 90)%nat then ascii_of_nat (n + 32) else c.

(** [s.toLowerCase()].  Outside ASCII the only characters whose lower case
    contains an ASCII letter are U+0130 (i followed by U+0307) and U+212A
    (k); neither can complete one of the ASCII keywords searched for in
    this program, so mapping the ASCII letters is enough for every
    [includes] test made on the result. *)
Fixpoint toLowerCase (s : string) : string :=
  match s with
  | EmptyString => EmptyString
  | String c s' => String (lower_char c) (toLowerCase s')
  end.

(** [s.replace(p, '')]: the first occurrence of [p] is removed. *)
Fixpoint remove_first (p s : string) : string :=
  if startsWith s p then drop (String.length p) s
  else match s with
       | EmptyString => EmptyString
       | String c s' => String c (remove_first p s')
       end.

(** Decimal text of an integer, as [String(n)] gives it. *)
Definition of_Z (z : Z) : string := NilZero.string_of_int (Z.to_int z).

Definition of_nat (n : nat) : string := of_Z (Z.of_nat n).

End Str.

(** ** Numbers and [formatBytes] *)

(** A JavaScript number: an integer, or [NaN]. *)
Inductive number : Type :=
| NaN
| Num (z : Z).

Definition number_is_zero (n : number) : bool :=
  match n with Num 0 => true | _ => false end.

(** Truthiness of a number: [0] and [NaN] are falsy. *)
Definition number_truthy (n : number) : bool :=
  match n with NaN => false | Num z => negb (z =? 0) end.

Definition k : Z := 1024.

Definition sizes : list string := ["B"; "KB"; "MB"; "GB"; "TB"].

(** [Math.floor(Math.log(bytes) / Math.log(k))].  [None] stands for the
    results that are not finite: [NaN] for a negative or [NaN] argument,
    [-Infinity] for zero.  For a positive integer the quotient of the two
    logarithms is the logarithm in base 1024, whose floor is
    [Z.log2 bytes / 10]; the quotient is taken exactly, without the rounding
    of the two logarithms and of their division. *)
Definition floor_log_k (bytes : number) : option Z :=
  match bytes with
  | Num b => if 0 <? b then Some (Z.log2 b / 10) else None
  | NaN => None
  end.

(** [sizes[i]]: [None] is [undefined]. *)
Definition sizes_at (i : option Z) : option string :=
  match i with
  | Some n => if n <? 0 then None else nth_error sizes (Z.to_nat n)
  | None => None
  end.

(** [x.toFixed(2)] for [x = num / den], in hundredths: the integer [n] with
    [n / 100] nearest to [x], the larger one on a tie. *)
Definition toFixed2 (num den : Z) : Z := (200 * num + den) / (2 * den).

Definition digit (d : Z) : string := Str.of_Z d.

(** [String(parseFloat(t))] for the text [t] of [h] hundredths: the trailing
    zeros of the fraction are dropped. *)
Definition hundredths_text (h : Z) : string :=
  let r := h mod 100 in
  Str.of_Z (h / 100) ++
  (if r =? 0 then EmptyString
   else if r mod 10 =? 0 then "." ++ digit (r / 10)
   else "." ++ digit (r / 10) ++ digit (r mod 10)).

(** [parseFloat((bytes / Math.pow(k, i)).toFixed(2))] as text. *)
Definition scaled_text (bytes : number) (i : option Z) : string :=
  match bytes, i with
  | Num b, Some n => hundredths_text (toFixed2 b (k ^ n))
  | _, _ => "NaN"
  end.

(** [undefined] concatenated to a string. *)
Definition or_undefined (o : option string) : string :=
  match o with Some s => s | None => "undefined" end.

(** The part of [formatBytes] after the test [bytes === 0]. *)
Definition format_scaled (bytes : number) : string :=
  let i := floor_log_k bytes in
  scaled_text bytes i ++ " " ++ or_undefined (sizes_at i).

Definition formatBytes (bytes : number) : string :=
  if number_is_zero bytes then "0 B" else format_scaled bytes.

(** ** The platform: white space, percent escapes, UTF-8

    The functions of this section are not code of the plugin: they model the
    JavaScript built-ins the plugin calls ([RegExp] matching, [URL],
    [URLSearchParams], [decodeURIComponent], [parseInt]) on UTF-8 strings,
    following ECMAScript and the WHATWG URL and Encoding standards. *)

Module Platform.

Import Str.

Definition between (lo n hi : nat) : bool := ((lo <=? n) && (n <=? hi))%nat.

(** Length in bytes of the white space character (the class [\s] of regular
    expressions, also the one [parseInt] skips) at the head of [s]; [0]
    when [s] does not start with one. *)
Definition ws_len (s : string) : nat :=
  match s with
  | EmptyString => 0
  | String a r =>
      let a := code a in
      if between 9 a 13 || (a =? 32)%nat then 1
      else
        match r with
        | EmptyString => 0
        | String b r' =>
            let b := code b in
            if (a =? 194)%nat && (b =? 160)%nat then 2      (* U+00A0 *)
            else
              match r' with
              | EmptyString => 0
              | String c _ =>
                  let c := code c in
                  if ((a =? 225) && (b =? 154) && (c =? 128))%nat         (* U+1680 *)
                     || ((a =? 226)%nat && (b =? 128)%nat &&
                         (between 128 c 138                               (* U+2000-200A *)
                          || between 168 c 169                            (* U+2028, U+2029 *)
                          || (c =? 175)%nat))                             (* U+202F *)
                     || ((a =? 226) && (b =? 129) && (c =? 159))%nat      (* U+205F *)
                     || ((a =? 227) && (b =? 128) && (c =? 128))%nat      (* U+3000 *)
                     || ((a =? 239) && (b =? 187) && (c =? 191))%nat      (* U+FEFF *)
                  then 3 else 0
              end
        end
  end.

Definition starts_with_space (s : string) : bool := negb (ws_len s =? 0)%nat.

(** The longest prefix without white space: what [[^\s]+] consumes. *)
Fixpoint take_nonspace (s : string) : string :=
  match s with
  | EmptyString => EmptyString
  | String c s' =>
      if starts_with_space s then EmptyString else String c (take_nonspace s')
  end.

Fixpoint take (n : nat) (s : string) : string :=
  match n, s with
  | S n', String c s' => String c (take n' s')
  | _, _ => EmptyString
  end.

(** [p], given in lower case, is a prefix of [s] up to the case of ASCII
    letters (the [i] flag without the [u] flag never maps a character
    outside ASCII to an ASCII one). *)
Fixpoint prefix_ci (p s : string) : bool :=
  match p, s with
  | EmptyString, _ => true
  | String a p', String b s' => Ascii.eqb a (lower_char b) && prefix_ci p' s'
  | String _ _, EmptyString => false
  end.

(** [text.match(/(magnet:\?[^\s]+)/gi)?.[0]]: the leftmost match. *)
Fixpoint match_magnet (text : string) : option string :=
  let here :=
    if prefix_ci "magnet:?" text then
      let run := take_nonspace (drop 8 text) in
      if is_empty run then None else Some (take 8 text ++ run)
    else None in
  match here, text with
  | Some m, _ => Some m
  | None, EmptyString => None
  | None, String _ text' => match_magnet text'
  end.

(** *** Percent escapes *)

Definition hex_val (c : ascii) : option nat :=
  let n := code c in
  if between 48 n 57 then Some (n - 48)%nat
  else if between 65 n 70 then Some (n - 55)%nat
  else if between 97 n 102 then Some (n - 87)%nat
  else None.

Definition hex_digit (n : nat) : ascii :=
  if (n <? 10)%nat then ascii_of_nat (48 + n) else ascii_of_nat (55 + n).

Definition percent : ascii := ascii_of_nat 37.

Definition escape (c : ascii) : string :=
  let n := code c in
  String percent (String (hex_digit (n / 16)) (String (hex_digit (n mod 16)) EmptyString)).

(** The query percent-encode set: the C0 controls, everything above [~],
    space, the double quote, [#], [<] and [>]. *)
Definition in_query_set (c : ascii) : bool :=
  let n := code c in
  (n <=? 31)%nat || (127 <=? n)%nat ||
  (n =? 32)%nat || (n =? 34)%nat || (n =? 35)%nat || (n =? 60)%nat || (n =? 62)%nat.

Fixpoint encode_query (s : string) : string :=
  match s with
  | EmptyString => EmptyString
  | String c s' =>
      (if in_query_set c then escape c else String c EmptyString) ++ encode_query s'
  end.

(** The byte written by the escape at the head of [s], when [s] starts
    with a percent sign and two hexadecimal digits. *)
Definition escape_at (s : string) : option ascii :=
  match s with
  | String p (String h (String l _)) =>
      if Ascii.eqb p percent then
        match hex_val h, hex_val l with
        | Some a, Some b => Some (ascii_of_nat (16 * a + b))
        | _, _ => None
        end
      else None
  | _ => None
  end.

(** Percent-decoding of the URL standard: a percent sign that is not
    followed by two hexadecimal digits is kept as it is.  [skip] counts the
    characters of an escape still to pass over. *)
Fixpoint percent_decode_from (skip : nat) (s : string) : string :=
  match s with
  | EmptyString => EmptyString
  | String c s' =>
      match skip with
      | S n => percent_decode_from n s'
      | O =>
          match escape_at s with
          | Some b => String b (percent_decode_from 2 s')
          | None => String c (percent_decode_from 0 s')
          end
      end
  end.

Definition percent_decode (s : string) : string := percent_decode_from 0 s.

(** *** UTF-8 *)

Definition of_codes (l : list nat) : string :=
  fold_right (fun n s => String (ascii_of_nat n) s) EmptyString l.

(** U+FFFD, the replacement character. *)
Definition replacement : string := of_codes [239; 191; 189]%nat.

(** The state of the UTF-8 decoder inside a character: the number of bytes
    still needed, the bounds of the next byte, the bytes read. *)
Definition utf8_state : Type := option (nat * nat * nat * string).

(** A byte read between two characters: what it writes and the state it
    leaves. *)
Definition utf8_lead (b : ascii) : string * utf8_state :=
  let n := code b in
  let one := String b EmptyString in
  if (n <=? 127)%nat then (one, None)
  else if between 194 n 223 then (EmptyString, Some (1, 128, 191, one))%nat
  else if between 224 n 239 then
    (EmptyString,
     Some (2, if n =? 224 then 160 else 128, if n =? 237 then 159 else 191, one))%nat
  else if between 240 n 244 then
    (EmptyString,
     Some (3, if n =? 240 then 144 else 128, if n =? 244 then 143 else 191, one))%nat
  else (replacement, None).

(** UTF-8 decode without BOM of the Encoding standard, the result being
    written in UTF-8 again: well-formed characters are copied, every
    ill-formed sequence becomes U+FFFD. *)
Fixpoint utf8_decode_from (st : utf8_state) (s : string) : string :=
  match s with
  | EmptyString =>
      match st with None => EmptyString | Some _ => replacement end
  | String b s' =>
      match st with
      | None =>
          let (out, st') := utf8_lead b in out ++ utf8_decode_from st' s'
      | Some (needed, lo, hi, seen) =>
          if between lo (code b) hi then
            let seen' := seen ++ String b EmptyString in
            match needed with
            | S (S n) => utf8_decode_from (Some (S n, 128, 191, seen')%nat) s'
            | _ => seen' ++ utf8_decode_from None s'
            end
          else
            let (out, st') := utf8_lead b in
            replacement ++ out ++ utf8_decode_from st' s'
      end
  end.

Definition utf8_decode (s : string) : string := utf8_decode_from None s.

(** [octets] is the UTF-8 encoding of one code point outside ASCII. *)
Definition valid_utf8_char (octets : list nat) : bool :=
  let cont n := between 128 n 191 in
  match octets with
  | [a; b] => between 194 a 223 && cont b
  | [a; b; c] =>
      between 224 a 239 &&
      between (if a =? 224 then 160 else 128)%nat b (if a =? 237 then 159 else 191)%nat &&
      cont c
  | [a; b; c; d] =>
      between 240 a 244 &&
      between (if a =? 240 then 144 else 128)%nat b (if a =? 244 then 143 else 191)%nat &&
      cont c && cont d
  | _ => false
  end.

(** *** [new URL(input).search] *)

Definition is_alpha (c : ascii) : bool :=
  between 65 (code c) 90 || between 97 (code c) 122.

Definition is_digit (c : ascii) : bool := between 48 (code c) 57.

Definition is_scheme_char (c : ascii) : bool :=
  is_alpha c || is_digit c ||
  (code c =? 43)%nat || (code c =? 45)%nat || (code c =? 46)%nat.

Definition is_c0_or_space (c : ascii) : bool := (code c <=? 32)%nat.

Definition is_tab_or_newline (c : ascii) : bool :=
  (code c =? 9)%nat || (code c =? 10)%nat || (code c =? 13)%nat.

Fixpoint filter (keep : ascii -> bool) (s : string) : string :=
  match s with
  | EmptyString => EmptyString
  | String c s' => if keep c then String c (filter keep s') else filter keep s'
  end.

Fixpoint strip_leading (s : string) : string :=
  match s with
  | String c s' => if is_c0_or_space c then strip_leading s' else s
  | EmptyString => EmptyString
  end.

(** [s] without its trailing C0 controls and spaces. *)
Fixpoint strip_trailing (s : string) : string :=
  match s with
  | EmptyString => EmptyString
  | String c s' =>
      match strip_trailing s' with
      | EmptyString => if is_c0_or_space c then EmptyString else String c EmptyString
      | t => String c t
      end
  end.

(** What follows the scheme and its colon; [None] when the input has no
    scheme (the parser fails, there being no base URL). *)
Fixpoint after_scheme (s : string) : option string :=
  match s with
  | EmptyString => None
  | String c s' =>
      if (code c =? 58)%nat then Some s'
      else if is_scheme_char c then after_scheme s'
      else None
  end.

(** [new URL(input).search]; [None] when the constructor throws.

    The model is exact for a URL with an opaque path, that is a scheme
    other than the special ones (ftp, file, http, https, ws, wss) followed
    by anything but a slash; every string the middleware extracts has the
    scheme [magnet] followed by a question mark.  For the other URLs the
    host and port parsers, which can fail, are not modelled: the query is
    read the same way. *)
Definition URL_search (input : string) : option string :=
  let input := filter (fun c => negb (is_tab_or_newline c))
                      (strip_trailing (strip_leading input)) in
  match input with
  | EmptyString => None
  | String c rest =>
      if is_alpha c then
        match after_scheme rest with
        | None => None
        | Some rest =>
            let (before_fragment, _) := cut "#" rest in
            match cut "?" before_fragment with
            | (_, Some query) =>
                if is_empty query then Some EmptyString
                else Some ("?" ++ encode_query query)
            | (_, None) => Some EmptyString
            end
        end
      else None
  end.

(** *** [URLSearchParams] *)

Definition plus_to_space (s : string) : string :=
  let fix go s :=
    match s with
    | EmptyString => EmptyString
    | String c s' => String (if (code c =? 43)%nat then " "%char else c) (go s')
    end in
  go s.

Definition form_decode (s : string) : string :=
  utf8_decode (percent_decode (plus_to_space s)).

(** The parser of [application/x-www-form-urlencoded]: empty sequences are
    skipped, a sequence is cut at its first equals sign. *)
Definition parse_urlencoded (s : string) : list (string * string) :=
  flat_map
    (fun seq =>
       if is_empty seq then []
       else
         let (name, value) := cut "=" seq in
         [(form_decode name,
           form_decode (match value with Some v => v | None => EmptyString end))])
    (split "&" s).

(** [new URLSearchParams(init)] for a string: one leading question mark is
    dropped. *)
Definition URLSearchParams (init : string) : list (string * string) :=
  parse_urlencoded
    (match init with
     | String c s' => if (code c =? 63)%nat then s' else init
     | EmptyString => init
     end).

(** [params.get(name)]: the first value, [None] for [null]. *)
Fixpoint get (params : list (string * string)) (name : string) : option string :=
  match params with
  | [] => None
  | (n, v) :: rest => if String.eqb n name then Some v else get rest name
  end.

(** [params.getAll(name)] *)
Definition getAll (params : list (string * string)) (name : string) : list string :=
  map snd (List.filter (fun p => String.eqb (fst p) name) params).

(** *** [decodeURIComponent] *)

(** Where the decoder stands inside an escape. *)
Inductive escape_state : Type :=
| Plain                      (* between escapes *)
| Percent                    (* after the percent sign *)
| PercentHigh (h : nat).     (* after the first hexadecimal digit *)

(** The number of bytes of the character a leading byte announces; [None]
    for a byte that cannot lead a character. *)
Definition announced (b : nat) : option nat :=
  if between 192 b 223 then Some 2%nat
  else if between 224 b 239 then Some 3%nat
  else if between 240 b 247 then Some 4%nat
  else None.

(** [decodeURIComponent(s)]; [None] when it throws [URIError].  [multi]
    holds, inside a character of several escapes, the number of escapes
    still expected and the bytes read. *)
Fixpoint decode_from (e : escape_state) (multi : option (nat * list nat))
         (s : string) : option string :=
  match s with
  | EmptyString =>
      match e, multi with
      | Plain, None => Some EmptyString
      | _, _ => None
      end
  | String c s' =>
      match e with
      | Plain =>
          if Ascii.eqb c percent then decode_from Percent multi s'
          else
            match multi with
            | None => option_map (String c) (decode_from Plain None s')
            | Some _ => None
            end
      | Percent =>
          match hex_val c with
          | Some h => decode_from (PercentHigh h) multi s'
          | None => None
          end
      | PercentHigh h =>
          match hex_val c with
          | None => None
          | Some l =>
              let b := (16 * h + l)%nat in
              match multi with
              | None =>
                  if (b <? 128)%nat then
                    option_map (String (ascii_of_nat b)) (decode_from Plain None s')
                  else
                    match announced b with
                    | Some n => decode_from Plain (Some (n - 1, [b])%nat) s'
                    | None => None
                    end
              | Some (expected, octets) =>
                  let octets := (octets ++ [b])%list in
                  match expected with
                  | 1%nat =>
                      if valid_utf8_char octets then
                        option_map (append (of_codes octets)) (decode_from Plain None s')
                      else None
                  | _ => decode_from Plain (Some (expected - 1, octets)%nat) s'
                  end
              end
          end
      end
  end.

Definition decodeURIComponent (s : string) : option string :=
  decode_from Plain None s.

(** *** [parseInt] *)

(** [s] without its leading white space; [skip] counts the remaining bytes
    of the white space character being passed over. *)
Fixpoint trim_start_from (skip : nat) (s : string) : string :=
  match s with
  | EmptyString => EmptyString
  | String _ s' =>
      match skip with
      | S n => trim_start_from n s'
      | O =>
          match ws_len s with
          | O => s
          | S n => trim_start_from n s'
          end
      end
  end.

Definition trim_start (s : string) : string := trim_start_from 0 s.

Definition digit_val (radix : nat) (c : ascii) : option nat :=
  let v :=
    if is_digit c then Some (code c - 48)%nat
    else hex_val c in
  match v with
  | Some d => if (d <? radix)%nat then Some d else None
  | None => None
  end.

(** The value of the longest prefix of [s] made of digits of [radix],
    continuing from [acc]; [None] when [s] starts with no digit and no
    digit was read before. *)
Fixpoint digits_from (radix : nat) (acc : option Z) (s : string) : option Z :=
  match s with
  | EmptyString => acc
  | String c s' =>
      match digit_val radix c with
      | Some d =>
          digits_from radix
            (Some (Z.of_nat radix * (match acc with Some a => a | None => 0 end)
                   + Z.of_nat d))
            s'
      | None => acc
      end
  end.

(** [parseInt(s)] with no radix: leading white space, a sign, the prefix
    [0x] or [0X] for base 16, then digits; [NaN] when there is none. *)
Definition parseInt (s : string) : number :=
  let s := trim_start s in
  let (sign, s) :=
    match s with
    | String c s' =>
        if (code c =? 45)%nat then (-1, s')
        else if (code c =? 43)%nat then (1, s')
        else (1, s)
    | EmptyString => (1, s)
    end in
  let (radix, s) :=
    if startsWith s "0x" || startsWith s "0X" then (16%nat, drop 2 s)
    else (10%nat, s) in
  match digits_from radix None s with
  | Some z => Num (sign * z)
  | None => NaN
  end.

End Platform.

(** ** The local decoders *)

(** What a local decoder returns.  [hash] is [None] for [undefined] (the
    structured decoder found no [xt]); [size] is [None] for [null]. *)
Record local_result : Type := {
  hash : option string;
  name : string;
  trackers : list string;
  size : option number
}.

Definition unknown_name : string := "未知资源".

(** Truthiness of a value that is a string, [null] or [undefined]. *)
Definition truthy_text (o : option string) : bool :=
  match o with
  | Some s => negb (Str.is_empty s)
  | None => false
  end.

Definition truthy_size (o : option number) : bool :=
  match o with
  | Some n => number_truthy n
  | None => false
  end.

Definition isNaN (n : number) : bool :=
  match n with NaN => true | Num _ => false end.

(** [parseLocalMagnet]: the decoder over [URL] and [URLSearchParams].
    [url_api] tells whether the environment defines both; every exception
    is caught and gives [null]. *)
Definition parseLocalMagnet (url_api : bool) (magnetURI : string) : option local_result :=
  if negb url_api then None
  else
    match Platform.URL_search magnetURI with
    | None => None
    | Some search =>
        let params := Platform.URLSearchParams search in
        let xt := Platform.get params "xt" in
        let dn := Platform.get params "dn" in
        let tr := Platform.getAll params "tr" in
        let xl := Platform.get params "xl" in
        match (if truthy_text dn
               then Platform.decodeURIComponent (match dn with Some d => d | None => EmptyString end)
               else Some unknown_name) with
        | None => None
        | Some decoded_name =>
            Some {| hash := option_map (Str.remove_first "urn:btih:") xt;
                    name := decoded_name;
                    trackers := tr;
                    size := if truthy_text xl
                            then Some (Platform.parseInt
                                         (match xl with Some x => x | None => EmptyString end))
                            else None |}
        end
    end.

(** [pair.split('=', 2)]: the first two pieces of the split at every equals
    sign; the second is [None] when there is no equals sign. *)
Definition split_key_value (pair : string) : string * option string :=
  match Str.split "=" pair with
  | key :: value :: _ => (key, Some value)
  | key :: [] => (key, None)
  | [] => (EmptyString, None)
  end.

(** One turn of the loop of [parseLocalMagnetManual]; [None] when
    [decodeURIComponent] throws. *)
Definition manual_step (result : local_result) (pair : string) : option local_result :=
  let (key, value) := split_key_value pair in
  if negb (truthy_text value) then Some result
  else
    match Platform.decodeURIComponent (match value with Some v => v | None => EmptyString end) with
    | None => None
    | Some decodedValue =>
        Some
          (if String.eqb key "xt" then
             if Str.startsWith decodedValue "urn:btih:" then
               {| hash := Some (Str.drop 9 decodedValue); name := name result;
                  trackers := trackers result; size := size result |}
             else result
           else if String.eqb key "dn" then
             {| hash := hash result; name := decodedValue;
                trackers := trackers result; size := size result |}
           else if String.eqb key "tr" then
             {| hash := hash result; name := name result;
                trackers := (trackers result ++ [decodedValue])%list; size := size result |}
           else if String.eqb key "xl" then
             let parsed := Platform.parseInt decodedValue in
             if negb (isNaN parsed) then
               {| hash := hash result; name := name result;
                  trackers := trackers result; size := Some parsed |}
             else result
           else result)
    end.

Fixpoint manual_loop (pairs : list string) (result : local_result) : option local_result :=
  match pairs with
  | [] => Some result
  | entry :: rest =>
      match manual_step result entry with
      | Some result' => manual_loop rest result'
      | None => None
      end
  end.

(** [parseLocalMagnetManual]: the decoder by string splitting. *)
Definition parseLocalMagnetManual (magnetURI : string) : option local_result :=
  if negb (Str.startsWith magnetURI "magnet:?") then None
  else
    let params := Str.drop 8 magnetURI in
    let pairs := Str.split "&" params in
    match manual_loop pairs
            {| hash := Some EmptyString; name := unknown_name; trackers := []; size := None |} with
    | Some result => if truthy_text (hash result) then Some result else None
    | None => None
    end.

(** The fallback of the middleware: the structured decoder, then the manual
    one when the first gave [null]. *)
Definition local_decode (url_api : bool) (magnetURI : string) : option local_result :=
  match parseLocalMagnet url_api magnetURI with
  | Some localResult => Some localResult
  | None => parseLocalMagnetManual magnetURI
  end.

(** ** Untyped data: the body of a remote response *)

(** A JavaScript value as [JSON.parse] builds it, with [undefined] for what
    is absent.  Numbers are integers (the data model gives [size] and
    [count] as integers). *)
#[local] Unset Elimination Schemes.
Inductive json : Type :=
| JUndefined
| JNull
| JBool (b : bool)
| JNum (z : Z)
| JStr (s : string)
| JArr (items : list json)
| JObj (fields : list (string * json)).
#[local] Set Elimination Schemes.

(** Truthiness: [undefined], [null], [false], [0] and the empty string are
    falsy. *)
Definition truthy (v : json) : bool :=
  match v with
  | JUndefined | JNull => false
  | JBool b => b
  | JNum z => negb (z =? 0)
  | JStr s => negb (Str.is_empty s)
  | JArr _ | JObj _ => true
  end.

Fixpoint assoc (key : string) (fields : list (string * json)) : json :=
  match fields with
  | [] => JUndefined
  | (name, v) :: rest => if String.eqb name key then v else assoc key rest
  end.

(** [v.key] for the keys the plugin reads ([error], [message], [name],
    [size], [count], [file_type], [screenshots], [screenshot]): a value
    that is not an object has none of them. *)
Definition field (v : json) (key : string) : json :=
  match v with
  | JObj fields => assoc key fields
  | _ => JUndefined
  end.

(** The object [v] without its property [key]. *)
Definition without (key : string) (v : json) : json :=
  match v with
  | JObj fields => JObj (List.filter (fun p => negb (String.eqb (fst p) key)) fields)
  | _ => v
  end.

(** The text of a value inside a template literal. *)
Fixpoint to_text (v : json) : string :=
  match v with
  | JUndefined => "undefined"
  | JNull => "null"
  | JBool true => "true"
  | JBool false => "false"
  | JNum z => Str.of_Z z
  | JStr s => s
  | JArr items =>
      let entry (x : json) : string :=
        match x with
        | JUndefined | JNull => EmptyString
        | _ => to_text x
        end in
      (fix join (l : list json) : string :=
         match l with
         | [] => EmptyString
         | x :: rest =>
             match rest with
             | [] => entry x
             | _ :: _ => entry x ++ "," ++ join rest
             end
         end) items
  | JObj _ => "[object Object]"
  end.

(** The numeric literal of a string: an optional sign and decimal digits, or
    [0x] and hexadecimal digits, nothing else around.  Literals with a
    fraction or an exponent, [Infinity] and the binary and octal prefixes
    are outside the model and read as [NaN]. *)
Definition integer_literal (s : string) : number :=
  let all_digits radix t :=
    negb (Str.is_empty t) &&
    Str.is_empty (Platform.filter (fun c => match Platform.digit_val radix c with
                                            | Some _ => false | None => true end) t) in
  let value radix t :=
    match Platform.digits_from radix None t with Some z => z | None => 0 end in
  if Str.startsWith s "0x" || Str.startsWith s "0X" then
    if all_digits 16%nat (Str.drop 2 s) then Num (value 16%nat (Str.drop 2 s)) else NaN
  else
    let (sign, t) :=
      match s with
      | String c s' =>
          if (Str.code c =? 45)%nat then (-1, s')
          else if (Str.code c =? 43)%nat then (1, s')
          else (1, s)
      | EmptyString => (1, s)
      end in
    if all_digits 10%nat t then Num (sign * value 10%nat t) else NaN.

(** [s] without its trailing white space. *)
Fixpoint trim_end (s : string) : string :=
  match s with
  | EmptyString => EmptyString
  | String c s' =>
      if Str.is_empty (Platform.trim_start s) then EmptyString
      else String c (trim_end s')
  end.

(** The conversion of a value to a number where arithmetic needs one. *)
Definition ToNumber (v : json) : number :=
  let of_string s :=
    let t := trim_end (Platform.trim_start s) in
    if Str.is_empty t then Num 0 else integer_literal t in
  match v with
  | JUndefined => NaN
  | JNull => Num 0
  | JBool b => Num (if b then 1 else 0)
  | JNum z => Num z
  | JStr s => of_string s
  | JArr _ => of_string (to_text v)
  | JObj _ => NaN
  end.

(** [formatBytes(v)] for an untyped argument: [v === 0] holds of the number
    zero only; the arithmetic converts [v]. *)
Definition formatBytes_any (v : json) : string :=
  match v with
  | JNum z => formatBytes (Num z)
  | _ => format_scaled (ToNumber v)
  end.

(** ** Messages, configuration, environment *)

Definition buffer : Type := string.

(** The elements built with [h]. *)
#[local] Unset Elimination Schemes.
Inductive element : Type :=
| Text (content : string)
| Quote (id : string)                 (* h('quote', { id }) *)
| Image (data : buffer)               (* h.image(buffer, 'image/jpeg') *)
| Message (children : list element)   (* h('message', ...) *)
| Figure (children : list element).   (* h('figure', ...): forwarded delivery *)
#[local] Set Elimination Schemes.

Record Config : Type := {
  apiEndpoint : string;
  timeout : Z;
  useForward : bool;
  showScreenshot : bool;
  debugMode : bool;
  sendSeparately : bool;
  customUserAgent : string;
  useLocalParsing : bool
}.

(** What the middleware reads of the session: [content] lists the contents
    of the text elements of the incoming message. *)
Record Session : Type := {
  platform : string;
  messageId : string;
  channelId : string;
  content : list string
}.

(** The answers of the environment during one run of the middleware. *)
Record World : Type := {
  now : Z;                                   (* Date.now() *)
  url_api : bool;                            (* URL and URLSearchParams are defined *)
  placeholder : list string;                 (* ids returned for the placeholder *)
  lookup : option json;                      (* body of the lookup; None: it rejects *)
  download : nat -> string -> option buffer  (* image fetched for entry i; None: it rejects *)
}.

Inductive event : Type :=
| Next                                                   (* next() *)
| Send (message : element)                               (* session.send *)
| Lookup (endpoint url : string) (timeout : Z) (userAgent : string)
| Download (url : string)                                (* ctx.http.get of an image *)
| DeleteMessage (channel id : string).

(** ** Effects: a trace and an outcome *)

Inductive outcome (A : Type) : Type :=
| Returned (a : A)
| Thrown.
Arguments Returned {A} a.
Arguments Thrown {A}.

Definition action (A : Type) : Type := list event * outcome A.

Definition ret {A : Type} (a : A) : action A := ([], Returned a).

Definition bind {A B : Type} (m : action A) (f : A -> action B) : action B :=
  match m with
  | (t, Returned a) => let (t', r) := f a in ((t ++ t')%list, r)
  | (t, Thrown) => (t, Thrown)
  end.

Definition emit (e : event) : action unit := ([e], Returned tt).

Definition throw {A : Type} : action A := ([], Thrown).

(** [try { body } catch { handler }] *)
Definition try_catch {A : Type} (body handler : action A) : action A :=
  match body with
  | (t, Returned a) => (t, Returned a)
  | (t, Thrown) => let (t', r) := handler in ((t ++ t')%list, r)
  end.

(** [try { body } finally { cleanup }] *)
Definition finally {A : Type} (body : action A) (cleanup : action unit) : action A :=
  match body, cleanup with
  | (t, r), (t', Returned _) => ((t ++ t')%list, r)
  | (t, _), (t', Thrown) => ((t ++ t')%list, Thrown)
  end.

Declare Scope action_scope.
Delimit Scope action_scope with action.
Notation "x <- m ;; f" := (bind m (fun x => f))
  (at level 61, m at next level, right associativity) : action_scope.
Notation "m ;; f" := (bind m (fun _ => f))
  (at level 61, right associativity) : action_scope.

Definition nl : string := String (ascii_of_nat 10) EmptyString.

(** ** [formatApiResponse] *)

Definition fileTypeIcons : list (string * string) :=
  [("folder", "📁"); ("video", "🎬"); ("audio", "🎵"); ("archive", "📦");
   ("image", "🖼️"); ("document", "📄"); ("text", "📝"); ("font", "🔠");
   ("unknown", "❓")].

(** [fileTypeIcons[key] || '❓'] (the properties inherited from
    [Object.prototype] are not modelled). *)
Fixpoint icon_of (table : list (string * string)) (key : string) : string :=
  match table with
  | [] => "❓"
  | (tag, icon) :: rest => if String.eqb tag key then icon else icon_of rest key
  end.

Definition is_array (v : json) : bool :=
  match v with JArr _ => true | _ => false end.

Definition array_items (v : json) : list json :=
  match v with JArr items => items | _ => [] end.

Definition hasScreenshots (config : Config) (data : json) : bool :=
  showScreenshot config && is_array (field data "screenshots") &&
  (0 <? List.length (array_items (field data "screenshots")))%nat.

Definition rule : string := "--------------------------".

Definition textContent (config : Config) (data : json) : string :=
  "✅ 解析成功" ++ nl ++
  rule ++ nl ++
  (if truthy (field data "file_type") then
     icon_of fileTypeIcons (to_text (field data "file_type")) ++
     " 内容类型: " ++ to_text (field data "file_type") ++ nl
   else EmptyString) ++
  "📝 资源名称: " ++ to_text (field data "name") ++ nl ++
  "💾 总大小: " ++ formatBytes_any (field data "size") ++ nl ++
  "🧩 文件数量: " ++ to_text (field data "count") ++ nl ++
  (if hasScreenshots config data then rule ++ nl ++ "🖼️ 截图预览:" else EmptyString).

(** The address of a screenshot entry: the [screenshot] property of an
    object, or the entry itself when it is a string; it must start with
    [http]. *)
Definition imageUrl (item : json) : option string :=
  match (if truthy item then field item "screenshot" else JUndefined) with
  | JStr s =>
      if Str.startsWith s "http" then Some s
      else match item with
           | JStr t => if Str.startsWith t "http" then Some t else None
           | _ => None
           end
  | _ =>
      match item with
      | JStr t => if Str.startsWith t "http" then Some t else None
      | _ => None
      end
  end.

(** The loop over [data.screenshots], from entry [index] on: a fetch that
    fails drops that image only. *)
Fixpoint fetch_images (w : World) (index : nat) (items : list json) : action (list element) :=
  match items with
  | [] => ret []
  | item :: rest =>
      match imageUrl item with
      | Some url =>
          (emit (Download url) ;;
           match download w index url with
           | Some data =>
               images <- fetch_images w (S index) rest ;;
               ret (Image data :: images)
           | None => fetch_images w (S index) rest
           end)%action
      | None => fetch_images w (S index) rest
      end
  end.

Definition supported_platforms : list string := ["qq"; "onebot"].

Definition formatApiResponse (w : World) (session : Session) (data : json)
           (config : Config) : action (list element) :=
  (imageElements <-
     (if hasScreenshots config data
      then fetch_images w 0 (array_items (field data "screenshots"))
      else ret []) ;;
   if sendSeparately config then
     ret (Message [Text (textContent config data)]
            :: map (fun imgElement => Message [imgElement]) imageElements)
   else
     let children := Text (textContent config data) :: imageElements in
     if useForward config && existsb (String.eqb (platform session)) supported_platforms
     then ret [Figure children]
     else ret [Message children])%action.

(** ** The middleware *)

Definition minInterval : Z := 3000.

(** [h('message', h('quote', { id: session.messageId }), text)] *)
Definition quoted (session : Session) (text : string) : element :=
  Message [Quote (messageId session); Text text].

(** [Math.ceil(x / d)] for integers, [d] positive. *)
Definition ceil_div (x d : Z) : Z := - ((- x) / d).

(** The seconds announced to a rejected trigger. *)
Definition wait_seconds (now lastRequestTime : Z) : Z :=
  ceil_div (minInterval - (now - lastRequestTime)) 1000.

Definition throttle_notice (now lastRequestTime : Z) : string :=
  "请求过于频繁，请等待 " ++ Str.of_Z (wait_seconds now lastRequestTime) ++ " 秒后再试".

Definition placeholder_text : string := "正在通过 whatslink.info 解析链接，请稍候...".

(** The test on the text of a reported error. *)
Definition is_quota_error (errorMsg : string) : bool :=
  Str.includes (Str.toLowerCase errorMsg) "quota" ||
  Str.includes (Str.toLowerCase errorMsg) "limit" ||
  Str.includes (Str.toLowerCase errorMsg) "frequent" ||
  Str.includes (Str.toLowerCase errorMsg) "rate".

Definition quota_banner : string := "⚠️ API 配额限制，使用本地解析".
Definition failure_banner : string := "⚠️ API 解析失败，使用本地解析".

Definition hasUsefulInfo (localResult : local_result) : bool :=
  negb (String.eqb (name localResult) unknown_name) ||
  (match size localResult with Some _ => true | None => false end) ||
  (0 <? List.length (trackers localResult))%nat.

Definition sizeText (localResult : local_result) : string :=
  match size localResult with
  | Some n => if number_truthy n then formatBytes n else "未知"
  | None => "未知"
  end.

(** The reduced-form reply: the text both fallback branches build, under
    their own banner. *)
Definition local_message (banner : string) (localResult : local_result) : string :=
  banner ++ nl ++ nl ++
  "🧲 Magnet 链接信息" ++ nl ++
  "📝 名称: " ++ name localResult ++ nl ++
  "🔗 哈希: " ++ or_undefined (hash localResult) ++ nl ++
  "💾 大小: " ++ sizeText localResult ++ nl ++
  "📡 Tracker 数量: " ++ Str.of_nat (List.length (trackers localResult)) ++
  (if negb (hasUsefulInfo localResult) then
     nl ++ nl ++ "⚠️ 此 magnet 链接信息不完整，仅包含哈希值" ++ nl ++
     "💡 建议：尝试从原始来源获取完整的 magnet 链接"
   else
     nl ++ nl ++ "💡 注意：本地解析仅提供基本信息，无截图和详细文件列表").

Definition local_failure_text : string := "解析失败，本地解析也无法处理此链接。".

(** The local fallback, written twice in the source (after a quota error and
    in the [catch] block) with two banners. *)
Definition local_fallback (banner : string) (w : World) (session : Session)
           (magnetURI : string) : action unit :=
  match local_decode (url_api w) magnetURI with
  | Some localResult =>
      if truthy_text (hash localResult)
      then emit (Send (quoted session (local_message banner localResult)))
      else emit (Send (quoted session local_failure_text))
  | None => emit (Send (quoted session local_failure_text))
  end.

Definition quota_notice (errorMsg : string) : string :=
  "解析失败：API 配额限制 - " ++ errorMsg ++ nl ++ nl ++
  "可能原因：whatslink.info 对非公共网站有配额限制，建议：" ++ nl ++
  "1. 降低请求频率" ++ nl ++
  "2. 考虑联系 API 提供商申请更高配额".

Definition failure_notice (reason : string) : string := "解析失败：" ++ reason.

Definition incomplete_text : string := "解析失败：API 返回数据不完整".

Definition unavailable_text : string := "解析失败，可能是网络问题或 API 暂时不可用。".

(** [a || b] *)
Definition or_else (a b : json) : json := if truthy a then a else b.

Fixpoint send_all (messages : list element) : action unit :=
  match messages with
  | [] => ret tt
  | message :: rest => (emit (Send message) ;; send_all rest)%action
  end.

(** The body of the [try] block once the lookup has answered [apiResponse]. *)
Definition classify (config : Config) (w : World) (session : Session)
           (magnetURI : string) (apiResponse : json) : action unit :=
  if negb (truthy apiResponse) then throw
  else
    let errorMsg := or_else (field apiResponse "error") (field apiResponse "message") in
    if truthy errorMsg then
      match errorMsg with
      | JStr text =>
          if is_quota_error text then
            if useLocalParsing config
            then local_fallback quota_banner w session magnetURI
            else emit (Send (quoted session (quota_notice text)))
          else emit (Send (quoted session (failure_notice text)))
      | _ => throw                      (* errorMsg.toLowerCase is not a function *)
      end
    else if negb (truthy (field apiResponse "name")) || negb (truthy (field apiResponse "size"))
    then emit (Send (quoted session incomplete_text))
    else
      match field apiResponse "name" with
      | JStr s =>
          if Str.includes (Str.toLowerCase s) "frequent"
          then emit (Send (quoted session (failure_notice s)))
          else (messagesToSend <- formatApiResponse w session apiResponse config ;;
                send_all messagesToSend)%action
      | _ => (messagesToSend <- formatApiResponse w session apiResponse config ;;
              send_all messagesToSend)%action
      end.

(** The [catch] block. *)
Definition on_error (config : Config) (w : World) (session : Session)
           (magnetURI : string) : action unit :=
  if useLocalParsing config
  then local_fallback failure_banner w session magnetURI
  else emit (Send (quoted session unavailable_text)).

(** The [finally] block: the placeholder is withdrawn; a failure of the
    deletion is swallowed. *)
Definition cleanup (w : World) (session : Session) : action unit :=
  match placeholder w with
  | id :: _ => emit (DeleteMessage (channelId session) id)
  | [] => ret tt
  end.

(** The [try]/[catch]/[finally] statement of the middleware. *)
Definition resolve (config : Config) (w : World) (session : Session)
           (magnetURI : string) : action unit :=
  finally
    (try_catch
       (emit (Send (quoted session placeholder_text)) ;;
        emit (Lookup (apiEndpoint config) magnetURI (timeout config)
                     (customUserAgent config)) ;;
        match lookup w with
        | Some apiResponse => classify config w session magnetURI apiResponse
        | None => throw
        end)%action
       (on_error config w session magnetURI))
    (cleanup w session).

(** [magnetURI], or [None] when the middleware hands over to [next()]. *)
Definition extract (session : Session) : option string :=
  match Platform.match_magnet (String.concat EmptyString (content session)) with
  | Some magnetURI =>
      if Str.includes magnetURI "xt=urn:btih:" then Some magnetURI else None
  | None => None
  end.

(** One run of the middleware from the throttle state [lastRequestTime]:
    the trace, and the throttle state after the run. *)
Definition middleware (config : Config) (w : World) (session : Session)
           (lastRequestTime : Z) : list event * Z :=
  match extract session with
  | None => ([Next], lastRequestTime)
  | Some magnetURI =>
      if now w - lastRequestTime <? minInterval then
        ([Send (quoted session (throttle_notice (now w) lastRequestTime))],
         lastRequestTime)
      else (fst (resolve config w session magnetURI), now w)
  end.

(** ** Vocabulary of the properties *)

(** The run makes the remote request. *)
Definition is_lookup (e : event) : bool :=
  match e with Lookup _ _ _ _ => true | _ => false end.

(** The environment [w] with another answer to the lookup. *)
Definition with_lookup (w : World) (answer : option json) : World :=
  {| now := now w; url_api := url_api w; placeholder := placeholder w;
     lookup := answer; download := download w |}.


(** The images of the entries whose fetch succeeds, in the order of the
    entries. *)
Fixpoint fetched (w : World) (index : nat) (items : list json) : list element :=
  match items with
  | [] => []
  | item :: rest =>
      match imageUrl item with
      | Some url =>
          match download w index url with
          | Some data => Image data :: fetched w (S index) rest
          | None => fetched w (S index) rest
          end
      | None => fetched w (S index) rest
      end
  end.

(** The trace of a run admitted by the throttle that ends with the single
    reply [reply]: placeholder, lookup, reply, withdrawal of the
    placeholder. *)
Definition single_reply (config : Config) (w : World) (session : Session)
           (magnetURI : string) (reply : string) : list event :=
  ([Send (quoted session placeholder_text);
    Lookup (apiEndpoint config) magnetURI (timeout config) (customUserAgent config);
    Send (quoted session reply)]
   ++ fst (cleanup w session))%list.

(** ** Sample inputs *)

Module Sample.

(** A link whose display name writes its spaces as plus signs. *)
Definition plus_link : string :=
  "magnet:?xt=urn:btih:c12fe1c06bba254a9dc9f519b335aa7c1367a88a&dn=Big+Buck+Bunny".

Definition short_link : string := "magnet:?xt=urn:btih:abc".

(** The default configuration of the schema. *)
Definition config : Config :=
  {| apiEndpoint := "https://whatslink.info/api/v1/link";
     timeout := 10000;
     useForward := false;
     showScreenshot := true;
     debugMode := false;
     sendSeparately := false;
     customUserAgent := "Mozilla/5.0";
     useLocalParsing := true |}.


Definition without_local_parsing : Config :=
  {| apiEndpoint := apiEndpoint config; timeout := timeout config;
     useForward := false; showScreenshot := true; debugMode := false;
     sendSeparately := false; customUserAgent := customUserAgent config;
     useLocalParsing := false |}.

Definition session : Session :=
  {| platform := "onebot"; messageId := "m1"; channelId := "c1";
     content := ["look at "; short_link] |}.

(** An environment at time 10000 whose lookup answers [answer] and where
    every image is fetched. *)
Definition world (answer : option json) : World :=
  {| now := 10000; url_api := true; placeholder := ["p1"];
     lookup := answer; download := fun _ url => Some ("image of " ++ url) |}.

Definition at_time (t : Z) : World :=
  {| now := t; url_api := true; placeholder := ["p1"];
     lookup := None; download := fun _ _ => None |}.

(** What both decoders read in [short_link]. *)
Definition short_result : local_result :=
  {| hash := Some "abc"; name := unknown_name; trackers := []; size := None |}.

Definition rate_limited : json := JObj [("error", JStr "rate limit exceeded")].

(** An error that is not about quota, with a message that is. *)
Definition both_fields : json :=
  JObj [("error", JStr "torrent not found"); ("message", JStr "rate limit exceeded")].

Definition no_size : json := JObj [("name", JStr "Big Buck Bunny"); ("count", JNum 3)].

Definition zero_size : json :=
  JObj [("name", JStr "Big Buck Bunny"); ("size", JNum 0); ("count", JNum 3)].

Definition three_screenshots : json :=
  JObj [("name", JStr "Big Buck Bunny"); ("size", JNum 1536); ("count", JNum 3);
        ("file_type", JStr "video");
        ("screenshots",
         JArr [JObj [("screenshot", JStr "https://img.example/1.jpg")];
               JObj [("screenshot", JStr "https://img.example/2.jpg")];
               JStr "https://img.example/3.jpg"])].

End Sample.

(** ** Further vocabulary: traces, successive runs, the other unit table *)

Definition is_next (e : event) : bool :=
  match e with Next => true | _ => false end.


Definition is_image (unit : element) : bool :=
  match unit with Image _ => true | _ => false end.


(** [p], given in lower case, occurs in [s] up to the case of ASCII
    letters. *)
Fixpoint contains_ci (p s : string) : bool :=
  Platform.prefix_ci p s ||
  match s with
  | EmptyString => false
  | String _ s' => contains_ci p s'
  end.

(** The addresses of the screenshot entries that carry one, in the order of
    the entries. *)
Definition addresses (items : list json) : list string :=
  flat_map (fun item => match imageUrl item with
                        | Some url => [url]
                        | None => []
                        end) items.

(** Successive runs of the middleware.  The variable [lastRequestTime] of
    [apply] is shared by all runs; a run reads and writes it before its
    first [await], so the runs see it in the order they start.  [serve]
    gives the trace of each run and the value left in the variable. *)
Fixpoint serve (config : Config) (inputs : list (World * Session))
         (lastRequestTime : Z) : list (list event) * Z :=
  match inputs with
  | [] => ([], lastRequestTime)
  | (w, session) :: rest =>
      let (trace, t) := middleware config w session lastRequestTime in
      let (traces, final) := serve config rest t in
      (trace :: traces, final)
  end.

(** The trigger passes the throttle: a link is extracted and [Date.now()] is
    at least [minInterval] after [lastRequestTime] (the tests at the head of
    the middleware). *)
Definition admitted (w : World) (session : Session) (lastRequestTime : Z) : bool :=
  match extract session with
  | Some _ => negb (now w - lastRequestTime <? minInterval)
  | None => false
  end.

(** The times of the admitted triggers among successive runs: for each one
    the value [Date.now()] had at its throttle check.  (The lookup of an
    admitted run starts later, after the placeholder is sent.) *)
Fixpoint admitted_times (config : Config) (inputs : list (World * Session))
         (lastRequestTime : Z) : list Z :=
  match inputs with
  | [] => []
  | (w, session) :: rest =>
      let t := snd (middleware config w session lastRequestTime) in
      if admitted w session lastRequestTime
      then now w :: admitted_times config rest t
      else admitted_times config rest t
  end.

(** Each time is at least [minInterval] after the one before it, the first
    one after [previous]. *)
Fixpoint spaced (previous : Z) (times : list Z) : Prop :=
  match times with
  | [] => True
  | t :: rest => minInterval <= t - previous /\ spaced t rest
  end.

(** The last element of [times], [previous] when there is none. *)
Fixpoint last_time (previous : Z) (times : list Z) : Z :=
  match times with
  | [] => previous
  | t :: rest => last_time t rest
  end.

(** *** Runs whose sends may reject, responses whose fields may not print

    [resolve] takes every [session.send] to resolve and every value to have
    a text.  The definitions below lift both assumptions for the [try]
    statement of the middleware. *)

Definition is_send (e : event) : bool :=
  match e with Send _ => true | _ => false end.

Definition is_delete (e : event) : bool :=
  match e with DeleteMessage _ _ => true | _ => false end.

(** The conversion of [v] to a string or to a number does not throw.  A
    value built by [JSON.parse] holds no function, so an object with a
    property of its own named [toString] has no usable conversion
    ([TypeError]); the conversion of an array converts its entries. *)
Fixpoint converts (v : json) : bool :=
  match v with
  | JObj fields => negb (existsb (fun p => String.eqb (fst p) "toString") fields)
  | JArr items =>
      (fix all (l : list json) : bool :=
         match l with
         | [] => true
         | x :: rest => converts x && all rest
         end) items
  | _ => true
  end.

(** The values [formatApiResponse] prints in the text block ([file_type],
    [name], [size] through [formatBytes], [count]) all convert. *)
Definition printable (data : json) : bool :=
  converts (field data "file_type") && converts (field data "name") &&
  converts (field data "size") && converts (field data "count").

(** The classification of [apiResponse] ends in the call of
    [formatApiResponse]: a body, no reported error, a truthy [name] that is
    no throttling message, a truthy [size]. *)
Definition reaches_formatter (apiResponse : json) : bool :=
  truthy apiResponse &&
  negb (truthy (or_else (field apiResponse "error") (field apiResponse "message"))) &&
  truthy (field apiResponse "name") && truthy (field apiResponse "size") &&
  negb (match field apiResponse "name" with
        | JStr s => Str.includes (Str.toLowerCase s) "frequent"
        | _ => false
        end).

(** The body of the [try] block when every send resolves: as in [resolve],
    but [formatApiResponse] throws, before any request for an image, when a
    value it prints does not convert. *)
Definition try_body (config : Config) (w : World) (session : Session)
           (magnetURI : string) : action unit :=
  (emit (Send (quoted session placeholder_text)) ;;
   emit (Lookup (apiEndpoint config) magnetURI (timeout config)
                (customUserAgent config)) ;;
   match lookup w with
   | Some apiResponse =>
       if reaches_formatter apiResponse && negb (printable apiResponse)
       then throw
       else classify config w session magnetURI apiResponse
   | None => throw
   end)%action.

(** The events of [t] that take place when the sends of the run are
    numbered from [k] and send number [i] resolves when [resolves i] holds:
    the events up to the first send that rejects, itself included (the call
    is made).  With them: whether a send rejected, and the number of the
    next send.  Nothing in the middleware reads what a send returns, but
    for the ids of the placeholder, which only the [finally] block uses; so
    the events before a rejected send are those of the run where it
    resolves. *)
Fixpoint until_rejected_send (resolves : nat -> bool) (k : nat) (t : list event)
  : list event * bool * nat :=
  match t with
  | [] => ([], false, k)
  | Send message :: rest =>
      if resolves k then
        let '(t', rejected, k') := until_rejected_send resolves (S k) rest in
        (Send message :: t', rejected, k')
      else ([Send message], true, S k)
  | e :: rest =>
      let '(t', rejected, k') := until_rejected_send resolves k rest in
      (e :: t', rejected, k')
  end.

(** The [try]/[catch]/[finally] statement when sends may reject.  A send
    that rejects inside [try] passes control to [catch], like any exception;
    [catch] makes one send, whose rejection leaves the statement by an
    exception, after [finally]; [finally] deletes the placeholder when its
    sending resolved with an id.  A [Send] in the trace records the call,
    resolved or not. *)
Definition run_with_sends (resolves : nat -> bool) (config : Config) (w : World)
           (session : Session) (magnetURI : string) : list event * outcome unit :=
  let body := try_body config w session magnetURI in
  let '(t1, rejected1, k1) := until_rejected_send resolves 0 (fst body) in
  let thrown :=
    rejected1 || match snd body with Thrown => true | Returned _ => false end in
  let '(t2, rejected2, _) :=
    if thrown
    then until_rejected_send resolves k1 (fst (on_error config w session magnetURI))
    else ([], false, k1) in
  let t3 := if resolves 0%nat then fst (cleanup w session) else [] in
  ((t1 ++ t2 ++ t3)%list, if rejected2 then Thrown else Returned tt).

(** The middleware when sends may reject: the throttle is written before
    the [try] statement, whatever happens in it. *)
Definition middleware_with_sends (resolves : nat -> bool) (config : Config)
           (w : World) (session : Session) (lastRequestTime : Z) : list event * Z :=
  match extract session with
  | None => ([Next], lastRequestTime)
  | Some magnetURI =>
      if now w - lastRequestTime <? minInterval then
        ([Send (quoted session (throttle_notice (now w) lastRequestTime))],
         lastRequestTime)
      else (fst (run_with_sends resolves config w session magnetURI), now w)
  end.

(** [formatBytes] as the two other source files of the repository have it
    (the ones whose configuration has no [useLocalParsing]): the zero literal
    is ["0 Bytes"] and the unit table goes up to ["PB"].  The parameter
    [decimals] is taken at its default, 2: these files call the function
    with one argument only. *)
Module Variant.

Definition sizes : list string := ["Bytes"; "KB"; "MB"; "GB"; "TB"; "PB"].

Definition sizes_at (i : option Z) : option string :=
  match i with
  | Some n => if n <? 0 then None else nth_error sizes (Z.to_nat n)
  | None => None
  end.

Definition formatBytes (bytes : number) : string :=
  if number_is_zero bytes then "0 Bytes"
  else
    let i := floor_log_k bytes in
    scaled_text bytes i ++ " " ++ or_undefined (sizes_at i).

End Variant.

(** ** Further sample inputs *)

Module Cases.

Definition upper_session : Session :=
  {| platform := "onebot"; messageId := "m1"; channelId := "c1";
     content := ["MAGNET:?xt=urn:btih:abc"] |}.

Definition chat_session : Session :=
  {| platform := "onebot"; messageId := "m1"; channelId := "c1";
     content := ["good "; "morning"] |}.

(** A link whose display name is a percent sign, escaped once. *)
Definition percent_session : Session :=
  {| platform := "onebot"; messageId := "m1"; channelId := "c1";
     content := ["magnet:?xt=urn:btih:abc&dn=100%25"] |}.

Definition bad_escape_link : string := "magnet:?xt=urn:btih:abc&ws=%zz".

(** An environment without [URL] and [URLSearchParams]. *)
Definition bare_world (t : Z) (answer : option json) : World :=
  {| now := t; url_api := false; placeholder := ["p1"];
     lookup := answer; download := fun _ _ => None |}.

Definition structured_error : json :=
  JObj [("error", JObj [("code", JNum 429)])].

Definition not_found : json := JObj [("error", JStr "torrent not found")].

Definition frequent_name : json :=
  JObj [("name", JStr "Too Frequent requests"); ("size", JNum 1)].


End Cases.

(** * Properties *)

(** ** [formatBytes] *)

(** C8: [formatBytes(0)] is ["0 B"], [formatBytes(1024)] is ["1 KB"] and
    [formatBytes(1536)] is ["1.5 KB"]. *)
Theorem formatBytes_examples :
  formatBytes (Num 0) = "0 B" /\
  formatBytes (Num 1024) = "1 KB" /\
  formatBytes (Num 1536) = "1.5 KB".
Proof. repeat split; vm_compute; reflexivity. Qed.

Lemma log2_beyond_table (b : Z) : 1024 ^ 5 <= b -> 5 <= Z.log2 b / 10.
Proof.
  intros Hb.
  assert (H50 : 50 <= Z.log2 b).
  { change 50 with (Z.log2 (1024 ^ 5)). apply Z.log2_le_mono. exact Hb. }
  apply Z.div_le_lower_bound; lia.
Qed.

(** C10: from [1024^5] bytes on, the index computed by [formatBytes] is past
    the end of the unit table, whose last entry is ["TB"]: the unit read is
    [undefined] and the text ends with the word ["undefined"]. *)
Theorem formatBytes_beyond_table (b : Z) :
  1024 ^ 5 <= b ->
  sizes_at (floor_log_k (Num b)) = None /\
  formatBytes (Num b) =
    scaled_text (Num b) (floor_log_k (Num b)) ++ " " ++ "undefined".
Proof.
  intros Hb.
  pose proof (log2_beyond_table b Hb) as Hi.
  assert (Hpos : 0 < b) by (assert (0 < 1024 ^ 5) by reflexivity; lia).
  assert (Hunit : sizes_at (floor_log_k (Num b)) = None).
  { unfold floor_log_k, sizes_at.
    destruct (Z.ltb_spec 0 b) as [_ | Hneg]; [ | lia ].
    destruct (Z.ltb_spec (Z.log2 b / 10) 0) as [Hlt | _]; [ lia | ].
    apply nth_error_None. cbn [sizes List.length]. lia. }
  split; [ exact Hunit | ].
  unfold formatBytes, format_scaled.
  rewrite Hunit.
  destruct b as [ | p | p ]; try lia.
  reflexivity.
Qed.

Lemma formatBytes_beyond_table_witness :
  sizes_at (floor_log_k (Num (1024 ^ 5))) = None /\
  formatBytes (Num (1024 ^ 5)) =
    scaled_text (Num (1024 ^ 5)) (floor_log_k (Num (1024 ^ 5))) ++ " " ++ "undefined".
Proof. apply (formatBytes_beyond_table (1024 ^ 5)). apply Z.le_refl. Defined.

(** ** The two local decoders *)

(** C2: on a link whose display name writes spaces as plus signs, the
    structured decoder reads the spaces and the manual decoder keeps the plus
    signs; hash, trackers and size agree, the names differ.  The fallback of
    the middleware therefore reads two names in the same link, according to
    whether the environment defines [URL] and [URLSearchParams]. *)
Theorem decoders_disagree_on_plus :
  parseLocalMagnet true Sample.plus_link =
    Some {| hash := Some "c12fe1c06bba254a9dc9f519b335aa7c1367a88a";
            name := "Big Buck Bunny"; trackers := []; size := None |} /\
  parseLocalMagnetManual Sample.plus_link =
    Some {| hash := Some "c12fe1c06bba254a9dc9f519b335aa7c1367a88a";
            name := "Big+Buck+Bunny"; trackers := []; size := None |} /\
  option_map name (local_decode true Sample.plus_link) = Some "Big Buck Bunny" /\
  option_map name (local_decode false Sample.plus_link) = Some "Big+Buck+Bunny".
Proof. repeat split; vm_compute; reflexivity. Qed.

(** The manual decoder also cuts a value at its second equals sign, which the
    structured decoder keeps. *)
Example decoders_disagree_on_equals :
  option_map trackers
    (parseLocalMagnet true "magnet:?xt=urn:btih:abc&tr=http://t.example/announce?k=v")
  = Some ["http://t.example/announce?k=v"] /\
  option_map trackers
    (parseLocalMagnetManual "magnet:?xt=urn:btih:abc&tr=http://t.example/announce?k=v")
  = Some ["http://t.example/announce?k"].
Proof. split; vm_compute; reflexivity. Qed.

(** On a link with escaped values and none of these characters the two
    decoders agree. *)
Example decoders_agree_on_escapes :
  parseLocalMagnet true
    "magnet:?xt=urn:btih:abc&dn=Ubuntu%2020.04&tr=udp%3A%2F%2Ft.example%3A80&xl=1536"
  = parseLocalMagnetManual
    "magnet:?xt=urn:btih:abc&dn=Ubuntu%2020.04&tr=udp%3A%2F%2Ft.example%3A80&xl=1536".
Proof. vm_compute; reflexivity. Qed.

(** ** The middleware: shape of a run *)

Lemma middleware_rejected (config : Config) (w : World) (session : Session)
      (magnetURI : string) (lastRequestTime : Z) :
  extract session = Some magnetURI ->
  now w - lastRequestTime < minInterval ->
  middleware config w session lastRequestTime =
    ([Send (quoted session (throttle_notice (now w) lastRequestTime))], lastRequestTime).
Proof.
  intros Hx Ht. unfold middleware. rewrite Hx.
  destruct (Z.ltb_spec (now w - lastRequestTime) minInterval); [ reflexivity | lia ].
Qed.

Lemma middleware_admitted (config : Config) (w : World) (session : Session)
      (magnetURI : string) (lastRequestTime : Z) :
  extract session = Some magnetURI ->
  minInterval <= now w - lastRequestTime ->
  middleware config w session lastRequestTime =
    (fst (resolve config w session magnetURI), now w).
Proof.
  intros Hx Ht. unfold middleware. rewrite Hx.
  destruct (Z.ltb_spec (now w - lastRequestTime) minInterval); [ lia | reflexivity ].
Qed.

(** A run whose lookup answers: the events of the classification, then those
    of the [catch] block when the classification throws. *)
Lemma resolve_answered (config : Config) (w : World) (session : Session)
      (magnetURI : string) (apiResponse : json) (t : list event) (r : outcome unit) :
  lookup w = Some apiResponse ->
  classify config w session magnetURI apiResponse = (t, r) ->
  fst (resolve config w session magnetURI) =
    ([Send (quoted session placeholder_text);
      Lookup (apiEndpoint config) magnetURI (timeout config) (customUserAgent config)]
     ++ t
     ++ match r with
        | Returned _ => []
        | Thrown => fst (on_error config w session magnetURI)
        end
     ++ fst (cleanup w session))%list.
Proof.
  intros Hl Hc. unfold resolve. rewrite Hl, Hc.
  unfold bind, emit, try_catch, finally.
  destruct r as [ u | ];
    destruct (on_error config w session magnetURI) as [t1 r1];
    destruct (cleanup w session) as [t2 [ u2 | ]]; cbn;
    rewrite ?app_nil_r, <- ?app_assoc; reflexivity.
Qed.

(** A run whose lookup rejects. *)
Lemma resolve_rejected (config : Config) (w : World) (session : Session)
      (magnetURI : string) :
  lookup w = None ->
  fst (resolve config w session magnetURI) =
    ([Send (quoted session placeholder_text);
      Lookup (apiEndpoint config) magnetURI (timeout config) (customUserAgent config)]
     ++ fst (on_error config w session magnetURI)
     ++ fst (cleanup w session))%list.
Proof.
  intros Hl. unfold resolve. rewrite Hl.
  unfold bind, emit, throw, try_catch, finally.
  destruct (on_error config w session magnetURI) as [t1 r1];
    destruct (cleanup w session) as [t2 [ u2 | ]]; cbn; reflexivity.
Qed.

Lemma resolve_makes_lookup (config : Config) (w : World) (session : Session)
      (magnetURI : string) :
  existsb is_lookup (fst (resolve config w session magnetURI)) = true.
Proof.
  destruct (lookup w) as [apiResponse | ] eqn:Hl.
  - destruct (classify config w session magnetURI apiResponse) as [t r] eqn:Hc.
    rewrite (resolve_answered _ _ _ _ _ _ _ Hl Hc). reflexivity.
  - rewrite (resolve_rejected _ _ _ _ Hl). reflexivity.
Qed.

(** ** The throttle *)

Lemma wait_seconds_rounds_up (now lastRequestTime : Z) :
  now - lastRequestTime < minInterval ->
  0 < wait_seconds now lastRequestTime /\
  1000 * (wait_seconds now lastRequestTime - 1)
    < minInterval - (now - lastRequestTime)
    <= 1000 * wait_seconds now lastRequestTime.
Proof.
  intros Ht. unfold wait_seconds, ceil_div.
  set (x := minInterval - (now - lastRequestTime)) in *.
  assert (Hx : 0 < x) by (unfold x; lia).
  pose proof (Z.div_mod (- x) 1000 ltac:(lia)) as Hdiv.
  pose proof (Z.mod_pos_bound (- x) 1000 ltac:(lia)) as Hmod.
  lia.
Qed.

(** C5, as the code has it: a trigger that comes less than [minInterval] (3000 ms) after
    [lastRequestTime] is rejected: the only event is the notice that tells
    the remaining interval rounded up to whole seconds, a positive number; no
    lookup is made and [lastRequestTime] keeps its value.  The lookup is made
    exactly when [now - lastRequestTime >= minInterval], and then
    [lastRequestTime] becomes [now]; hence a second trigger less than
    [minInterval] after an admitted one is rejected and leaves the time of
    the first in place. *)
Theorem throttle_contract (config : Config) (w : World) (session : Session)
        (magnetURI : string) (lastRequestTime : Z) :
  extract session = Some magnetURI ->
  (now w - lastRequestTime < minInterval ->
     middleware config w session lastRequestTime =
       ([Send (quoted session (throttle_notice (now w) lastRequestTime))],
        lastRequestTime) /\
     0 < wait_seconds (now w) lastRequestTime /\
     1000 * (wait_seconds (now w) lastRequestTime - 1)
       < minInterval - (now w - lastRequestTime)
       <= 1000 * wait_seconds (now w) lastRequestTime) /\
  (existsb is_lookup (fst (middleware config w session lastRequestTime)) = true
   <-> minInterval <= now w - lastRequestTime) /\
  (minInterval <= now w - lastRequestTime ->
     snd (middleware config w session lastRequestTime) = now w /\
     forall (config2 : Config) (w2 : World) (session2 : Session) (magnetURI2 : string),
       extract session2 = Some magnetURI2 ->
       now w2 - now w < minInterval ->
       middleware config2 w2 session2
                  (snd (middleware config w session lastRequestTime)) =
         ([Send (quoted session2 (throttle_notice (now w2) (now w)))], now w)).
Proof.
  intros Hx. split; [ | split ].
  - intros Ht. split.
    + exact (middleware_rejected config w session magnetURI lastRequestTime Hx Ht).
    + exact (wait_seconds_rounds_up (now w) lastRequestTime Ht).
  - split.
    + intros Hl.
      destruct (Z.lt_ge_cases (now w - lastRequestTime) minInterval) as [Ht | Ht];
        [ | exact Ht ].
      rewrite (middleware_rejected config w session magnetURI lastRequestTime Hx Ht) in Hl.
      discriminate Hl.
    + intros Ht.
      rewrite (middleware_admitted config w session magnetURI lastRequestTime Hx Ht).
      apply resolve_makes_lookup.
  - intros Ht.
    rewrite (middleware_admitted config w session magnetURI lastRequestTime Hx Ht).
    split; [ reflexivity | ].
    intros config2 w2 session2 magnetURI2 Hx2 Ht2.
    exact (middleware_rejected config2 w2 session2 magnetURI2 (now w) Hx2 Ht2).
Qed.

Lemma throttle_contract_witness :
  middleware Sample.config (Sample.at_time 10000) Sample.session 9000 =
    ([Send (quoted Sample.session "请求过于频繁，请等待 2 秒后再试")], 9000) /\
  middleware Sample.config (Sample.at_time 12999) Sample.session
             (snd (middleware Sample.config (Sample.at_time 10000) Sample.session 0)) =
    ([Send (quoted Sample.session "请求过于频繁，请等待 1 秒后再试")], 10000).
Proof.
  split.
  - destruct (throttle_contract Sample.config (Sample.at_time 10000) Sample.session
                                Sample.short_link 9000 eq_refl) as [Hrejected _].
    destruct (Hrejected eq_refl) as [Hrun _]. exact Hrun.
  - destruct (throttle_contract Sample.config (Sample.at_time 10000) Sample.session
                                Sample.short_link 0 eq_refl) as [_ [_ Hadmitted]].
    assert (Hle : minInterval <= now (Sample.at_time 10000) - 0)
      by (vm_compute; discriminate).
    destruct (Hadmitted Hle) as [_ Hsecond].
    exact (Hsecond Sample.config (Sample.at_time 12999) Sample.session
                   Sample.short_link eq_refl eq_refl).
Defined.

(** ** Responses without a usable name or size *)

Lemma classify_incomplete (config : Config) (w : World) (session : Session)
      (magnetURI : string) (apiResponse : json) :
  truthy apiResponse = true ->
  truthy (field apiResponse "error") = false ->
  truthy (field apiResponse "message") = false ->
  truthy (field apiResponse "name") = false \/ truthy (field apiResponse "size") = false ->
  classify config w session magnetURI apiResponse =
    ([Send (quoted session incomplete_text)], Returned tt).
Proof.
  intros Hbody Herror Hmessage Hfield.
  unfold classify, or_else. rewrite Hbody, Herror, Hmessage. cbn [negb].
  destruct Hfield as [H | H]; rewrite H; cbn [negb orb];
    [ | rewrite orb_true_r ]; reflexivity.
Qed.

Lemma incomplete_run (config : Config) (w : World) (session : Session)
      (magnetURI : string) (lastRequestTime : Z) (apiResponse : json) :
  extract session = Some magnetURI ->
  minInterval <= now w - lastRequestTime ->
  lookup w = Some apiResponse ->
  truthy apiResponse = true ->
  truthy (field apiResponse "error") = false ->
  truthy (field apiResponse "message") = false ->
  truthy (field apiResponse "name") = false \/ truthy (field apiResponse "size") = false ->
  middleware config w session lastRequestTime =
    (single_reply config w session magnetURI incomplete_text, now w).
Proof.
  intros Hx Ht Hl Hbody Herror Hmessage Hfield.
  rewrite (middleware_admitted config w session magnetURI lastRequestTime Hx Ht).
  rewrite (resolve_answered config w session magnetURI apiResponse _ _ Hl
             (classify_incomplete config w session magnetURI apiResponse
                                  Hbody Herror Hmessage Hfield)).
  reflexivity.
Qed.

(** C4: a response that has a body, no error and no message (absent or
    falsy), and lacks [size] or lacks [name], gets the single notice
    "data incomplete", whatever the configuration, [useLocalParsing]
    included: the local decoders play no part in the run. *)
Theorem missing_field_is_incomplete (config : Config) (w : World) (session : Session)
        (magnetURI : string) (lastRequestTime : Z) (apiResponse : json) :
  extract session = Some magnetURI ->
  minInterval <= now w - lastRequestTime ->
  lookup w = Some apiResponse ->
  truthy apiResponse = true ->
  truthy (field apiResponse "error") = false ->
  truthy (field apiResponse "message") = false ->
  field apiResponse "size" = JUndefined \/ field apiResponse "name" = JUndefined ->
  middleware config w session lastRequestTime =
    (single_reply config w session magnetURI incomplete_text, now w).
Proof.
  intros Hx Ht Hl Hbody Herror Hmessage Hfield.
  apply (incomplete_run config w session magnetURI lastRequestTime apiResponse);
    try assumption.
  destruct Hfield as [H | H]; [ right | left ]; rewrite H; reflexivity.
Qed.

Lemma missing_field_is_incomplete_witness :
  middleware Sample.config (Sample.world (Some Sample.no_size)) Sample.session 0 =
    (single_reply Sample.config (Sample.world (Some Sample.no_size)) Sample.session
                  Sample.short_link incomplete_text, 10000) /\
  middleware Sample.without_local_parsing (Sample.world (Some Sample.no_size))
             Sample.session 0 =
    (single_reply Sample.without_local_parsing (Sample.world (Some Sample.no_size))
                  Sample.session Sample.short_link incomplete_text, 10000).
Proof.
  assert (Hle : minInterval <= now (Sample.world (Some Sample.no_size)) - 0)
    by (vm_compute; discriminate).
  split.
  - exact (missing_field_is_incomplete Sample.config (Sample.world (Some Sample.no_size))
             Sample.session Sample.short_link 0 Sample.no_size
             eq_refl Hle eq_refl eq_refl eq_refl eq_refl (or_introl eq_refl)).
  - exact (missing_field_is_incomplete Sample.without_local_parsing
             (Sample.world (Some Sample.no_size))
             Sample.session Sample.short_link 0 Sample.no_size
             eq_refl Hle eq_refl eq_refl eq_refl eq_refl (or_introl eq_refl)).
Defined.

Lemma assoc_without_same (key : string) (fields : list (string * json)) :
  assoc key (List.filter (fun p => negb (String.eqb (fst p) key)) fields) = JUndefined.
Proof.
  induction fields as [ | [name v] rest IH ]; [ reflexivity | ].
  cbn [List.filter fst]. destruct (String.eqb name key) eqn:E; cbn [negb].
  - exact IH.
  - cbn [assoc]. rewrite E. exact IH.
Qed.

Lemma assoc_without_other (key other : string) (fields : list (string * json)) :
  String.eqb key other = false ->
  assoc other (List.filter (fun p => negb (String.eqb (fst p) key)) fields)
  = assoc other fields.
Proof.
  intros Hne.
  induction fields as [ | [name v] rest IH ]; [ reflexivity | ].
  cbn [List.filter fst]. destruct (String.eqb name key) eqn:E; cbn [negb assoc].
  - apply String.eqb_eq in E. subst name. rewrite Hne. exact IH.
  - rewrite IH. reflexivity.
Qed.

Lemma field_without_same (key : string) (v : json) :
  field (without key v) key = JUndefined.
Proof. destruct v; try reflexivity. apply assoc_without_same. Qed.

Lemma field_without_other (key other : string) (v : json) :
  String.eqb key other = false ->
  field (without key v) other = field v other.
Proof. intros Hne. destruct v; try reflexivity. apply assoc_without_other, Hne. Qed.

Lemma truthy_without (key : string) (v : json) : truthy (without key v) = truthy v.
Proof. destruct v; reflexivity. Qed.

(** C9: a response that has a body, no error and no message, and whose
    [size] is [0], or whose [name] is the empty string, gets the single
    notice "data incomplete" and no other reply: the run is the run made for
    the same response with that property removed. *)
Theorem falsy_field_is_incomplete (config : Config) (w : World) (session : Session)
        (magnetURI : string) (lastRequestTime : Z) (apiResponse : json) (key : string) :
  extract session = Some magnetURI ->
  minInterval <= now w - lastRequestTime ->
  lookup w = Some apiResponse ->
  truthy apiResponse = true ->
  truthy (field apiResponse "error") = false ->
  truthy (field apiResponse "message") = false ->
  (key = "size" /\ field apiResponse "size" = JNum 0) \/
  (key = "name" /\ field apiResponse "name" = JStr EmptyString) ->
  middleware config w session lastRequestTime =
    (single_reply config w session magnetURI incomplete_text, now w) /\
  middleware config w session lastRequestTime =
    middleware config (with_lookup w (Some (without key apiResponse))) session
               lastRequestTime.
Proof.
  intros Hx Ht Hl Hbody Herror Hmessage Hfield.
  assert (Hrun : middleware config w session lastRequestTime =
                 (single_reply config w session magnetURI incomplete_text, now w)).
  { apply (incomplete_run config w session magnetURI lastRequestTime apiResponse);
      try assumption.
    destruct Hfield as [[_ H] | [_ H]]; [ right | left ]; rewrite H; reflexivity. }
  split; [ exact Hrun | ].
  rewrite Hrun. symmetry.
  assert (Hkey : String.eqb key "error" = false /\ String.eqb key "message" = false).
  { destruct Hfield as [[-> _] | [-> _]]; split; reflexivity. }
  destruct Hkey as [Hkerror Hkmessage].
  apply (incomplete_run config (with_lookup w (Some (without key apiResponse)))
                        session magnetURI lastRequestTime (without key apiResponse));
    try assumption; try reflexivity.
  - rewrite truthy_without. exact Hbody.
  - rewrite (field_without_other key "error" apiResponse Hkerror). exact Herror.
  - rewrite (field_without_other key "message" apiResponse Hkmessage). exact Hmessage.
  - destruct Hfield as [[-> _] | [-> _]]; [ right | left ];
      rewrite field_without_same; reflexivity.
Qed.

Lemma falsy_field_is_incomplete_witness :
  middleware Sample.config (Sample.world (Some Sample.zero_size)) Sample.session 0 =
    (single_reply Sample.config (Sample.world (Some Sample.zero_size)) Sample.session
                  Sample.short_link incomplete_text, 10000) /\
  middleware Sample.config (Sample.world (Some Sample.zero_size)) Sample.session 0 =
    middleware Sample.config
               (with_lookup (Sample.world (Some Sample.zero_size))
                            (Some (without "size" Sample.zero_size)))
               Sample.session 0.
Proof.
  assert (Hle : minInterval <= now (Sample.world (Some Sample.zero_size)) - 0)
    by (vm_compute; discriminate).
  exact (falsy_field_is_incomplete Sample.config (Sample.world (Some Sample.zero_size))
           Sample.session Sample.short_link 0 Sample.zero_size "size"
           eq_refl Hle eq_refl eq_refl eq_refl eq_refl
           (or_introl (conj eq_refl eq_refl))).
Defined.

(** ** An empty body *)

Lemma classify_empty (config : Config) (w : World) (session : Session)
      (magnetURI : string) (body : json) :
  truthy body = false ->
  classify config w session magnetURI body = ([], Thrown).
Proof. intros Hbody. unfold classify. rewrite Hbody. reflexivity. Qed.

Lemma on_error_trace (config : Config) (w : World) (session : Session)
      (magnetURI : string) :
  fst (on_error config w session magnetURI) =
    [Send (quoted session
             (if useLocalParsing config then
                match local_decode (url_api w) magnetURI with
                | Some localResult =>
                    if truthy_text (hash localResult)
                    then local_message failure_banner localResult
                    else local_failure_text
                | None => local_failure_text
                end
              else unavailable_text))].
Proof.
  unfold on_error, local_fallback.
  destruct (useLocalParsing config); [ | reflexivity ].
  destruct (local_decode (url_api w) magnetURI) as [localResult | ]; [ | reflexivity ].
  destruct (truthy_text (hash localResult)); reflexivity.
Qed.

(** C1, as the code has it: an empty or absent body is thrown to the [catch]
    block, so the run is the run of a lookup that rejects.  Without
    [useLocalParsing] the single reply is the notice "network problem or API
    unavailable" and no local decoder runs; with [useLocalParsing] the local
    decoders run, and the single reply is the reduced-form reply when they
    recover a hash, the notice "local parsing failed too" otherwise. *)
Theorem empty_body_is_transport_failure (config : Config) (w : World) (session : Session)
        (magnetURI : string) (lastRequestTime : Z) (body : json) :
  extract session = Some magnetURI ->
  minInterval <= now w - lastRequestTime ->
  lookup w = Some body ->
  truthy body = false ->
  middleware config w session lastRequestTime =
    middleware config (with_lookup w None) session lastRequestTime /\
  (useLocalParsing config = false ->
     middleware config w session lastRequestTime =
       (single_reply config w session magnetURI unavailable_text, now w)) /\
  (useLocalParsing config = true ->
     forall localResult : local_result,
       local_decode (url_api w) magnetURI = Some localResult ->
       truthy_text (hash localResult) = true ->
       middleware config w session lastRequestTime =
         (single_reply config w session magnetURI
                       (local_message failure_banner localResult), now w)) /\
  (useLocalParsing config = true ->
     (forall localResult : local_result,
        local_decode (url_api w) magnetURI = Some localResult ->
        truthy_text (hash localResult) = false) ->
     middleware config w session lastRequestTime =
       (single_reply config w session magnetURI local_failure_text, now w)).
Proof.
  intros Hx Ht Hl Hbody.
  assert (Hrun : middleware config w session lastRequestTime =
                 (([Send (quoted session placeholder_text);
                    Lookup (apiEndpoint config) magnetURI (timeout config)
                           (customUserAgent config)]
                   ++ fst (on_error config w session magnetURI)
                   ++ fst (cleanup w session))%list, now w)).
  { rewrite (middleware_admitted config w session magnetURI lastRequestTime Hx Ht).
    rewrite (resolve_answered config w session magnetURI body _ _ Hl
               (classify_empty config w session magnetURI body Hbody)).
    reflexivity. }
  split; [ | split; [ | split ] ].
  - rewrite Hrun.
    rewrite (middleware_admitted config (with_lookup w None) session magnetURI
                                 lastRequestTime Hx Ht).
    rewrite (resolve_rejected config (with_lookup w None) session magnetURI eq_refl).
    reflexivity.
  - intros Hlocal. rewrite Hrun, on_error_trace, Hlocal. reflexivity.
  - intros Hlocal localResult Hdecode Hhash.
    rewrite Hrun, on_error_trace, Hlocal, Hdecode, Hhash. reflexivity.
  - intros Hlocal Hnone.
    rewrite Hrun, on_error_trace, Hlocal.
    destruct (local_decode (url_api w) magnetURI) as [localResult | ]; [ | reflexivity ].
    rewrite (Hnone localResult eq_refl). reflexivity.
Qed.

Lemma empty_body_is_transport_failure_witness :
  middleware Sample.config (Sample.world (Some JNull)) Sample.session 0 =
    middleware Sample.config (with_lookup (Sample.world (Some JNull)) None)
               Sample.session 0 /\
  middleware Sample.config (Sample.world (Some JNull)) Sample.session 0 =
    (single_reply Sample.config (Sample.world (Some JNull)) Sample.session
                  Sample.short_link (local_message failure_banner Sample.short_result),
     10000).
Proof.
  assert (Hle : minInterval <= now (Sample.world (Some JNull)) - 0)
    by (vm_compute; discriminate).
  destruct (empty_body_is_transport_failure Sample.config (Sample.world (Some JNull))
              Sample.session Sample.short_link 0 JNull eq_refl Hle eq_refl eq_refl)
    as [Hsame [_ [Hlocal _]]].
  split; [ exact Hsame | ].
  apply (Hlocal eq_refl Sample.short_result); vm_compute; reflexivity.
Defined.

(** C1 fails as stated: with [useLocalParsing] and an absent body ([null]),
    the local decoder runs on the link and the reply is the reduced-form
    reply built from its result. *)
Lemma empty_body_runs_local_decoder :
  truthy JNull = false /\
  useLocalParsing Sample.config = true /\
  local_decode true Sample.short_link = Some Sample.short_result /\
  fst (middleware Sample.config (Sample.world (Some JNull)) Sample.session 0) =
    [Send (quoted Sample.session placeholder_text);
     Lookup "https://whatslink.info/api/v1/link" Sample.short_link 10000 "Mozilla/5.0";
     Send (quoted Sample.session (local_message failure_banner Sample.short_result));
     DeleteMessage "c1" "p1"].
Proof. repeat split; vm_compute; reflexivity. Qed.

(** ** Quota errors *)

Lemma is_quota_error_nonempty (text : string) :
  is_quota_error text = true -> truthy (JStr text) = true.
Proof. destruct text; [ discriminate | reflexivity ]. Qed.

Lemma or_else_text_is_truthy_body (apiResponse : json) (text : string) :
  or_else (field apiResponse "error") (field apiResponse "message") = JStr text ->
  truthy apiResponse = true.
Proof.
  destruct apiResponse; try reflexivity; cbn; discriminate.
Qed.

(** C3, as the code has it: the text of the reported error is the [error]
    property when it is truthy, the [message] property otherwise.  When that
    text contains, whatever the case of its letters, one of "quota", "limit",
    "frequent", "rate", when [useLocalParsing] is set and the local decoders
    recover a hash, the run is: placeholder, lookup, one reduced-form reply
    (banner "quota limit", then the name, the hash and the size read in the
    link), withdrawal of the placeholder.  No image is fetched and no unit of
    [formatApiResponse] is sent. *)
Theorem quota_error_falls_back (config : Config) (w : World) (session : Session)
        (magnetURI : string) (lastRequestTime : Z) (apiResponse : json)
        (text : string) (localResult : local_result) :
  extract session = Some magnetURI ->
  minInterval <= now w - lastRequestTime ->
  lookup w = Some apiResponse ->
  or_else (field apiResponse "error") (field apiResponse "message") = JStr text ->
  is_quota_error text = true ->
  useLocalParsing config = true ->
  local_decode (url_api w) magnetURI = Some localResult ->
  truthy_text (hash localResult) = true ->
  middleware config w session lastRequestTime =
    (single_reply config w session magnetURI (local_message quota_banner localResult),
     now w).
Proof.
  intros Hx Ht Hl Htext Hquota Hlocal Hdecode Hhash.
  rewrite (middleware_admitted config w session magnetURI lastRequestTime Hx Ht).
  assert (Hc : classify config w session magnetURI apiResponse =
               ([Send (quoted session (local_message quota_banner localResult))],
                Returned tt)).
  { unfold classify.
    rewrite (or_else_text_is_truthy_body apiResponse text Htext).
    cbn [negb]. rewrite Htext.
    rewrite (is_quota_error_nonempty text Hquota), Hquota, Hlocal.
    unfold local_fallback. rewrite Hdecode, Hhash. reflexivity. }
  rewrite (resolve_answered config w session magnetURI apiResponse _ _ Hl Hc).
  reflexivity.
Qed.

Lemma quota_error_falls_back_witness :
  middleware Sample.config (Sample.world (Some Sample.rate_limited)) Sample.session 0 =
    (single_reply Sample.config (Sample.world (Some Sample.rate_limited)) Sample.session
                  Sample.short_link (local_message quota_banner Sample.short_result),
     10000).
Proof.
  assert (Hle : minInterval <= now (Sample.world (Some Sample.rate_limited)) - 0)
    by (vm_compute; discriminate).
  apply (quota_error_falls_back Sample.config (Sample.world (Some Sample.rate_limited))
           Sample.session Sample.short_link 0 Sample.rate_limited
           "rate limit exceeded" Sample.short_result);
    solve [ exact Hle | vm_compute; reflexivity ].
Defined.

(** C3 fails as stated: the response carries a [message] whose text contains
    "rate" and "limit", but its [error] is set too and names no quota; with
    [useLocalParsing] and a link whose hash is decoded, the reply is the
    failure notice quoting [error], not a reduced-form reply. *)
Lemma message_keyword_with_other_error :
  field Sample.both_fields "message" = JStr "rate limit exceeded" /\
  is_quota_error "rate limit exceeded" = true /\
  useLocalParsing Sample.config = true /\
  local_decode true Sample.short_link = Some Sample.short_result /\
  truthy_text (hash Sample.short_result) = true /\
  fst (middleware Sample.config (Sample.world (Some Sample.both_fields))
                  Sample.session 0) =
    [Send (quoted Sample.session placeholder_text);
     Lookup "https://whatslink.info/api/v1/link" Sample.short_link 10000 "Mozilla/5.0";
     Send (quoted Sample.session "解析失败：torrent not found");
     DeleteMessage "c1" "p1"].
Proof. repeat split; vm_compute; reflexivity. Qed.

(** ** [formatApiResponse] *)

Lemma snd_bind {A B : Type} (m : action A) (f : A -> action B) :
  snd (bind m f) =
    match snd m with
    | Returned a => snd (f a)
    | Thrown => Thrown
    end.
Proof.
  destruct m as [t [a | ]]; [ | reflexivity ].
  cbn. destruct (f a); reflexivity.
Qed.

(** The loop over the screenshots never throws: it returns the images whose
    fetch succeeded, in the order of the entries. *)
Lemma fetch_images_returns (w : World) (items : list json) :
  forall index : nat,
    snd (fetch_images w index items) = Returned (fetched w index items).
Proof.
  induction items as [ | item rest IH ]; intros index; [ reflexivity | ].
  cbn [fetch_images fetched].
  destruct (imageUrl item) as [url | ]; [ | apply IH ].
  rewrite snd_bind. cbn [emit snd].
  destruct (download w index url) as [data | ]; [ | apply IH ].
  rewrite snd_bind, IH. reflexivity.
Qed.


Lemma formatApiResponse_returns (w : World) (session : Session) (data : json)
      (config : Config) :
  snd (formatApiResponse w session data config) =
    let imageElements :=
      if hasScreenshots config data
      then fetched w 0 (array_items (field data "screenshots"))
      else [] in
    Returned
      (if sendSeparately config then
         Message [Text (textContent config data)]
           :: map (fun imgElement => Message [imgElement]) imageElements
       else if useForward config
               && existsb (String.eqb (platform session)) supported_platforms
            then [Figure (Text (textContent config data) :: imageElements)]
            else [Message (Text (textContent config data) :: imageElements)]).
Proof.
  unfold formatApiResponse. rewrite snd_bind.
  destruct (hasScreenshots config data).
  - rewrite fetch_images_returns. cbv zeta.
    destruct (sendSeparately config); [ reflexivity | ].
    destruct (useForward config && _); reflexivity.
  - cbn [ret snd]. cbv zeta.
    destruct (sendSeparately config); [ reflexivity | ].
    destruct (useForward config && _); reflexivity.
Qed.





(** ** The extracted link *)

Lemma prefix_ci_take (p s rest : string) :
  Platform.prefix_ci p s = true ->
  Platform.prefix_ci p (Platform.take (String.length p) s ++ rest) = true.
Proof.
  revert s. induction p as [ | a p IH ]; intros s H; [ reflexivity | ].
  destruct s as [ | b s ]; [ discriminate | ].
  cbn in H. apply andb_true_iff in H. destruct H as [Hab Hrest].
  cbn. rewrite Hab. cbn. apply IH, Hrest.
Qed.

Lemma match_magnet_scheme (text magnetURI : string) :
  Platform.match_magnet text = Some magnetURI ->
  Platform.prefix_ci "magnet:?" magnetURI = true.
Proof.
  induction text as [ | c text IH ]; intros H.
  - cbn in H. discriminate.
  - cbn [Platform.match_magnet] in H.
    destruct (Platform.prefix_ci "magnet:?" (String c text)) eqn:Hp.
    + destruct (Str.is_empty (Platform.take_nonspace (Str.drop 8 (String c text)))).
      * apply IH, H.
      * injection H as <-.
        apply (prefix_ci_take "magnet:?" (String c text) _ Hp).
    + apply IH, H.
Qed.

(** Every link the middleware works on has the scheme [magnet] followed by a
    question mark (in any case of the letters) and contains the hash
    parameter: it is a URL with an opaque path, on which [Platform.URL_search]
    is exact. *)
Lemma extract_magnet_scheme (session : Session) (magnetURI : string) :
  extract session = Some magnetURI ->
  Platform.prefix_ci "magnet:?" magnetURI = true /\
  Str.includes magnetURI "xt=urn:btih:" = true.
Proof.
  unfold extract. intros H.
  destruct (Platform.match_magnet (concat EmptyString (content session)))
    as [m | ] eqn:Hm; [ | discriminate ].
  destruct (Str.includes m "xt=urn:btih:") eqn:Hi; [ | discriminate ].
  injection H as <-.
  split; [ exact (match_magnet_scheme _ _ Hm) | exact Hi ].
Qed.

(** * Further properties of the code *)

(** ** Traces of the parts of a run *)

Lemma fst_bind {A B : Type} (m : action A) (f : A -> action B) :
  fst (bind m f) =
    (fst m ++ match snd m with
              | Returned a => fst (f a)
              | Thrown => []
              end)%list.
Proof.
  destruct m as [t [a | ]]; cbn.
  - destruct (f a); reflexivity.
  - rewrite app_nil_r. reflexivity.
Qed.

Lemma fetch_images_trace (w : World) (items : list json) :
  forall index : nat,
    fst (fetch_images w index items) = map Download (addresses items).
Proof.
  induction items as [ | item rest IH ]; intros index; [ reflexivity | ].
  cbn [fetch_images addresses flat_map].
  destruct (imageUrl item) as [url | ]; [ | apply IH ].
  rewrite fst_bind. cbn [emit fst snd app map].
  f_equal.
  destruct (download w index url) as [data | ]; [ | apply IH ].
  rewrite fst_bind, fetch_images_returns, IH. cbn [ret fst].
  apply app_nil_r.
Qed.

Lemma formatApiResponse_trace (w : World) (session : Session) (data : json)
      (config : Config) :
  fst (formatApiResponse w session data config) =
    if hasScreenshots config data
    then map Download (addresses (array_items (field data "screenshots")))
    else [].
Proof.
  unfold formatApiResponse. rewrite fst_bind.
  assert (Hrest : forall imageElements : list element,
             fst (if sendSeparately config
                  then ret (Message [Text (textContent config data)]
                              :: map (fun imgElement => Message [imgElement]) imageElements)
                  else if useForward config
                          && existsb (String.eqb (platform session)) supported_platforms
                       then ret [Figure (Text (textContent config data) :: imageElements)]
                       else ret [Message (Text (textContent config data) :: imageElements)])
             = []).
  { intros imageElements. destruct (sendSeparately config); [ reflexivity | ].
    destruct (useForward config && _); reflexivity. }
  destruct (hasScreenshots config data).
  - rewrite fetch_images_returns, fetch_images_trace, Hrest. apply app_nil_r.
  - cbn [ret fst snd]. rewrite Hrest. reflexivity.
Qed.

Lemma formatApiResponse_some_unit (w : World) (session : Session) (data : json)
      (config : Config) :
  exists units : list element,
    snd (formatApiResponse w session data config) = Returned units /\ units <> [].
Proof.
  rewrite formatApiResponse_returns. cbv zeta.
  eexists. split; [ reflexivity | ].
  destruct (sendSeparately config); [ discriminate | ].
  destruct (useForward config && _); discriminate.
Qed.

Lemma send_all_trace (units : list element) :
  send_all units = (map Send units, Returned tt).
Proof.
  induction units as [ | unit rest IH ]; [ reflexivity | ].
  cbn [send_all]. unfold bind, emit. rewrite IH. reflexivity.
Qed.

Lemma format_and_send (w : World) (session : Session) (data : json) (config : Config)
      (units : list element) :
  snd (formatApiResponse w session data config) = Returned units ->
  bind (formatApiResponse w session data config) send_all =
    ((fst (formatApiResponse w session data config) ++ map Send units)%list,
     Returned tt).
Proof.
  intros Hunits.
  destruct (formatApiResponse w session data config) as [t r]. cbn in Hunits.
  subst r. cbn. rewrite send_all_trace. reflexivity.
Qed.

Lemma local_fallback_single (banner : string) (w : World) (session : Session)
      (magnetURI : string) :
  exists text : string,
    local_fallback banner w session magnetURI =
      ([Send (quoted session text)], Returned tt).
Proof.
  unfold local_fallback.
  destruct (local_decode (url_api w) magnetURI) as [localResult | ];
    [ destruct (truthy_text (hash localResult)) | ];
    eexists; reflexivity.
Qed.

Lemma on_error_single (config : Config) (w : World) (session : Session)
      (magnetURI : string) :
  exists text : string,
    on_error config w session magnetURI = ([Send (quoted session text)], Returned tt).
Proof.
  unfold on_error. destruct (useLocalParsing config).
  - apply local_fallback_single.
  - eexists; reflexivity.
Qed.

(** The classification either throws before any event, or returns after the
    downloads of the formatter (if any) and at least one reply. *)
Lemma classify_shape (config : Config) (w : World) (session : Session)
      (magnetURI : string) (apiResponse : json) :
  classify config w session magnetURI apiResponse = ([], Thrown) \/
  exists (urls : list string) (replies : list element),
    classify config w session magnetURI apiResponse =
      ((map Download urls ++ map Send replies)%list, Returned tt) /\
    replies <> [] /\
    (showScreenshot config = false -> urls = []).
Proof.
  assert (Hone : forall text : string,
             exists (urls : list string) (replies : list element),
               (([Send (quoted session text)], Returned tt) : action unit) =
                 ((map Download urls ++ map Send replies)%list, Returned tt) /\
               replies <> [] /\
               (showScreenshot config = false -> urls = [])).
  { intros text. exists [], [quoted session text].
    split; [ reflexivity | split; [ discriminate | reflexivity ] ]. }
  assert (Hformat :
            exists (urls : list string) (replies : list element),
              bind (formatApiResponse w session apiResponse config) send_all =
                ((map Download urls ++ map Send replies)%list, Returned tt) /\
              replies <> [] /\
              (showScreenshot config = false -> urls = [])).
  { destruct (formatApiResponse_some_unit w session apiResponse config)
      as [units [Hunits Hne]].
    rewrite (format_and_send w session apiResponse config units Hunits).
    rewrite formatApiResponse_trace.
    destruct (hasScreenshots config apiResponse) eqn:Hs.
    - eexists _, units. split; [ reflexivity | split; [ exact Hne | ] ].
      intros Hshow. unfold hasScreenshots in Hs. rewrite Hshow in Hs. discriminate Hs.
    - exists [], units. split; [ reflexivity | split; [ exact Hne | reflexivity ] ]. }
  unfold classify.
  destruct (truthy apiResponse); cbn [negb]; [ | left; reflexivity ].
  destruct (truthy (or_else (field apiResponse "error") (field apiResponse "message"))).
  - destruct (or_else (field apiResponse "error") (field apiResponse "message"));
      try (left; reflexivity).
    right. destruct (is_quota_error s); [ | apply Hone ].
    destruct (useLocalParsing config); [ | apply Hone ].
    destruct (local_fallback_single quota_banner w session magnetURI) as [text ->].
    apply Hone.
  - right.
    destruct (negb (truthy (field apiResponse "name"))
              || negb (truthy (field apiResponse "size"))); [ apply Hone | ].
    destruct (field apiResponse "name"); try exact Hformat.
    destruct (Str.includes (Str.toLowerCase s) "frequent"); [ apply Hone | exact Hformat ].
Qed.

Lemma cleanup_trace (w : World) (session : Session) :
  fst (cleanup w session) =
    match placeholder w with
    | id :: _ => [DeleteMessage (channelId session) id]
    | [] => []
    end.
Proof. unfold cleanup. destruct (placeholder w); reflexivity. Qed.

(** Every run of the [try] statement: placeholder, lookup, downloads (if
    any), at least one reply, withdrawal of the placeholder. *)
Lemma resolve_shape (config : Config) (w : World) (session : Session)
      (magnetURI : string) :
  exists (urls : list string) (replies : list element),
    replies <> [] /\
    (showScreenshot config = false -> urls = []) /\
    fst (resolve config w session magnetURI) =
      ([Send (quoted session placeholder_text);
        Lookup (apiEndpoint config) magnetURI (timeout config) (customUserAgent config)]
       ++ map Download urls ++ map Send replies
       ++ match placeholder w with
          | id :: _ => [DeleteMessage (channelId session) id]
          | [] => []
          end)%list.
Proof.
  destruct (on_error_single config w session magnetURI) as [text Herror].
  destruct (lookup w) as [apiResponse | ] eqn:Hl.
  - destruct (classify_shape config w session magnetURI apiResponse)
      as [Hc | [urls [replies [Hc [Hne Hshow]]]]].
    + exists [], [quoted session text].
      split; [ discriminate | split; [ reflexivity | ] ].
      rewrite (resolve_answered config w session magnetURI apiResponse _ _ Hl Hc).
      rewrite Herror, cleanup_trace. reflexivity.
    + exists urls, replies. split; [ exact Hne | split; [ exact Hshow | ] ].
      rewrite (resolve_answered config w session magnetURI apiResponse _ _ Hl Hc).
      rewrite cleanup_trace. cbn [app]. rewrite <- app_assoc. reflexivity.
  - exists [], [quoted session text].
    split; [ discriminate | split; [ reflexivity | ] ].
    rewrite (resolve_rejected config w session magnetURI Hl).
    rewrite Herror, cleanup_trace. reflexivity.
Qed.

(** ** What every run does *)

(** *** Runs whose sends may reject *)

Lemma until_rejected_send_all (resolves : nat -> bool) (t : list event) :
  (forall i : nat, resolves i = true) ->
  forall k : nat, exists k' : nat, until_rejected_send resolves k t = (t, false, k').
Proof.
  intros Hall. induction t as [ | e t IH ]; intros k.
  - exists k. reflexivity.
  - destruct e; cbn [until_rejected_send];
      try (destruct (IH k) as [k' ->]; exists k'; reflexivity).
    rewrite Hall. destruct (IH (S k)) as [k' ->]. exists k'. reflexivity.
Qed.

Lemma until_rejected_send_absent (P : event -> bool) (resolves : nat -> bool)
      (t : list event) :
  forall k : nat,
    existsb P t = false ->
    existsb P (fst (fst (until_rejected_send resolves k t))) = false.
Proof.
  induction t as [ | e t IH ]; intros k H; [ reflexivity | ].
  cbn [existsb] in H. apply orb_false_iff in H. destruct H as [He Ht].
  destruct e; cbn [until_rejected_send];
    try (specialize (IH k Ht);
         destruct (until_rejected_send resolves k t) as [[t' rejected] k'];
         cbn [fst existsb] in *; rewrite He, IH; reflexivity).
  destruct (resolves k).
  - specialize (IH (S k) Ht).
    destruct (until_rejected_send resolves (S k) t) as [[t' rejected] k'].
    cbn [fst existsb] in *. rewrite He, IH. reflexivity.
  - cbn [fst existsb]. rewrite He. reflexivity.
Qed.

Lemma until_rejected_send_first (resolves : nat -> bool) (t : list event) :
  forall k : nat,
    existsb is_send t = true ->
    existsb is_send (fst (fst (until_rejected_send resolves k t))) = true.
Proof.
  induction t as [ | e t IH ]; intros k H; [ discriminate H | ].
  destruct e; cbn [until_rejected_send];
    try (cbn [existsb is_send orb] in H; specialize (IH k H);
         destruct (until_rejected_send resolves k t) as [[t' rejected] k'];
         cbn [fst existsb is_send orb] in *; exact IH).
  destruct (resolves k).
  - destruct (until_rejected_send resolves (S k) t) as [[t' rejected] k']. reflexivity.
  - reflexivity.
Qed.

Lemma no_event_in_downloads (P : event -> bool) (urls : list string) :
  (forall url : string, P (Download url) = false) ->
  existsb P (map Download urls) = false.
Proof.
  intros HP. induction urls as [ | url rest IH ]; [ reflexivity | ].
  cbn [map existsb]. rewrite HP, IH. reflexivity.
Qed.

Lemma no_event_in_sends (P : event -> bool) (replies : list element) :
  (forall message : element, P (Send message) = false) ->
  existsb P (map Send replies) = false.
Proof.
  intros HP. induction replies as [ | reply rest IH ]; [ reflexivity | ].
  cbn [map existsb]. rewrite HP, IH. reflexivity.
Qed.

(** What follows the lookup in the body of the [try] block: downloads and
    sends only, with at least one send unless the body throws. *)
Lemma try_body_shape (config : Config) (w : World) (session : Session)
      (magnetURI : string) :
  exists (t : list event) (r : outcome unit),
    try_body config w session magnetURI =
      (Send (quoted session placeholder_text)
         :: Lookup (apiEndpoint config) magnetURI (timeout config) (customUserAgent config)
         :: t, r) /\
    existsb is_lookup t = false /\
    existsb is_delete t = false /\
    existsb is_next t = false /\
    (r = Thrown \/ existsb is_send t = true).
Proof.
  assert (Hthrow : exists (t : list event) (r : outcome unit),
             (@throw unit) = (t, r) /\
             existsb is_lookup t = false /\ existsb is_delete t = false /\
             existsb is_next t = false /\ (r = Thrown \/ existsb is_send t = true)).
  { exists [], Thrown. repeat split; try reflexivity. left. reflexivity. }
  assert (Hinner : exists (t : list event) (r : outcome unit),
             match lookup w with
             | Some apiResponse =>
                 if reaches_formatter apiResponse && negb (printable apiResponse)
                 then throw
                 else classify config w session magnetURI apiResponse
             | None => throw
             end = (t, r) /\
             existsb is_lookup t = false /\ existsb is_delete t = false /\
             existsb is_next t = false /\ (r = Thrown \/ existsb is_send t = true)).
  { destruct (lookup w) as [apiResponse | ]; [ | exact Hthrow ].
    destruct (reaches_formatter apiResponse && negb (printable apiResponse));
      [ exact Hthrow | ].
    destruct (classify_shape config w session magnetURI apiResponse)
      as [Hc | [urls [replies [Hc [Hne _]]]]].
    - rewrite Hc. exact Hthrow.
    - rewrite Hc. eexists _, _. split; [ reflexivity | ].
      rewrite !existsb_app.
      rewrite !no_event_in_downloads by reflexivity.
      rewrite !no_event_in_sends by reflexivity.
      repeat split; try reflexivity.
      right. destruct replies as [ | reply replies ]; [ contradiction Hne; reflexivity | ].
      cbn [map existsb is_send orb]. reflexivity. }
  destruct Hinner as (t & r & Hinner & Hfacts).
  exists t, r. split; [ | exact Hfacts ].
  unfold try_body. rewrite Hinner. unfold bind, emit. reflexivity.
Qed.

(** With sends that may reject, every [try] statement starts with the call
    that sends the placeholder and goes on with [rest]. *)
Lemma run_with_sends_shape (resolves : nat -> bool) (config : Config) (w : World)
      (session : Session) (magnetURI : string) :
  exists rest : list event,
    fst (run_with_sends resolves config w session magnetURI) =
      (Send (quoted session placeholder_text) :: rest
       ++ (if resolves 0%nat
           then match placeholder w with
                | id :: _ => [DeleteMessage (channelId session) id]
                | [] => []
                end
           else []))%list /\
    existsb is_send rest = true /\
    existsb is_delete rest = false /\
    existsb is_next rest = false /\
    List.filter is_lookup rest =
      (if resolves 0%nat
       then [Lookup (apiEndpoint config) magnetURI (timeout config)
                    (customUserAgent config)]
       else []).
Proof.
  destruct (try_body_shape config w session magnetURI)
    as (t & r & Hbody & Hlookup & Hdelete & Hnext & Hsend).
  destruct (on_error_single config w session magnetURI) as [text Herror].
  unfold run_with_sends. rewrite Hbody, Herror, cleanup_trace.
  cbn [fst snd until_rejected_send].
  destruct (resolves 0%nat) eqn:H0.
  - pose proof (until_rejected_send_absent is_lookup resolves t 1 Hlookup) as Kl.
    pose proof (until_rejected_send_absent is_delete resolves t 1 Hdelete) as Kd.
    pose proof (until_rejected_send_absent is_next resolves t 1 Hnext) as Kn.
    pose proof (until_rejected_send_first resolves t 1) as Ks.
    destruct (until_rejected_send resolves 1 t) as [[t' rejected] k'].
    cbn [fst] in Kl, Kd, Kn, Ks.
    assert (Hfilter : List.filter is_lookup t' = []).
    { clear - Kl. induction t' as [ | e t' IH ]; [ reflexivity | ].
      cbn [existsb] in Kl. apply orb_false_iff in Kl. destruct Kl as [He Ht].
      cbn [List.filter]. rewrite He. exact (IH Ht). }
    destruct (rejected || match r with Thrown => true | Returned _ => false end) eqn:Hthrown.
    + exists (Lookup (apiEndpoint config) magnetURI (timeout config)
                     (customUserAgent config) :: t' ++ [Send (quoted session text)])%list.
      split; [ destruct (resolves k'); cbn; rewrite <- !app_assoc; reflexivity | ].
      cbn [existsb is_send is_delete is_next orb List.filter is_lookup].
      rewrite !existsb_app, Kd, Kn, filter_app, Hfilter.
      cbn. rewrite orb_true_r. repeat split; reflexivity.
    + apply orb_false_iff in Hthrown. destruct Hthrown as [_ Hr].
      destruct Hsend as [-> | Hsend]; [ discriminate Hr | ].
      exists (Lookup (apiEndpoint config) magnetURI (timeout config)
                     (customUserAgent config) :: t').
      split; [ reflexivity | ].
      cbn [existsb is_send is_delete is_next orb List.filter is_lookup].
      rewrite (Ks Hsend), Kd, Kn, Hfilter. repeat split; reflexivity.
  - cbn [orb].
    exists [Send (quoted session text)].
    split; [ destruct (resolves 1%nat); reflexivity | repeat split; reflexivity ].
Qed.

(** When every send resolves and the printed values convert, the [try]
    statement runs as [resolve] describes. *)
Lemma run_with_sends_ideal (resolves : nat -> bool) (config : Config) (w : World)
      (session : Session) (magnetURI : string) :
  (forall i : nat, resolves i = true) ->
  (forall apiResponse : json,
      lookup w = Some apiResponse ->
      reaches_formatter apiResponse = true -> printable apiResponse = true) ->
  fst (run_with_sends resolves config w session magnetURI) =
    fst (resolve config w session magnetURI).
Proof.
  intros Hall Hprint.
  assert (Hbody : try_body config w session magnetURI =
                  (emit (Send (quoted session placeholder_text)) ;;
                   emit (Lookup (apiEndpoint config) magnetURI (timeout config)
                                (customUserAgent config)) ;;
                   match lookup w with
                   | Some apiResponse => classify config w session magnetURI apiResponse
                   | None => throw
                   end)%action).
  { unfold try_body. destruct (lookup w) as [apiResponse | ]; [ | reflexivity ].
    destruct (reaches_formatter apiResponse) eqn:Hr; [ | reflexivity ].
    rewrite (Hprint apiResponse eq_refl Hr). reflexivity. }
  unfold run_with_sends, resolve. rewrite Hbody.
  destruct (emit (Send (quoted session placeholder_text)) ;;
            emit (Lookup (apiEndpoint config) magnetURI (timeout config)
                         (customUserAgent config)) ;;
            match lookup w with
            | Some apiResponse => classify config w session magnetURI apiResponse
            | None => throw
            end)%action as [t r].
  cbn [fst snd].
  destruct (until_rejected_send_all resolves t Hall 0) as [k1 ->].
  rewrite Hall. cbn [orb].
  unfold try_catch, finally.
  destruct r as [u | ].
  - destruct (cleanup w session) as [t3 [u3 | ]]; reflexivity.
  - destruct (on_error config w session magnetURI) as [t2 r2]. cbn [fst].
    destruct (until_rejected_send_all resolves t2 Hall k1) as [k2 ->].
    destruct (cleanup w session) as [t3 [u3 | ]]; cbn [fst];
      rewrite app_assoc; reflexivity.
Qed.

(** X4: a run admitted by the throttle, whether its sends resolve or reject,
    always starts with the call that sends the placeholder.  It makes the
    lookup exactly when that send resolves, and once; it goes on with at
    least one more send (a reply), never with [next()]; it deletes the
    placeholder, last, exactly when the send of the placeholder resolved
    with an id; and [lastRequestTime] becomes [now].  When every send
    resolves and the values printed by [formatApiResponse] convert to text,
    the run is the one [middleware] gives. *)
Theorem admitted_run_shape (resolves : nat -> bool) (config : Config) (w : World)
        (session : Session) (magnetURI : string) (lastRequestTime : Z) :
  extract session = Some magnetURI ->
  minInterval <= now w - lastRequestTime ->
  (exists rest : list event,
      middleware_with_sends resolves config w session lastRequestTime =
        ((Send (quoted session placeholder_text) :: rest
          ++ (if resolves 0%nat
              then match placeholder w with
                   | id :: _ => [DeleteMessage (channelId session) id]
                   | [] => []
                   end
              else []))%list,
         now w) /\
      existsb is_send rest = true /\
      existsb is_delete rest = false /\
      existsb is_next rest = false /\
      List.filter is_lookup rest =
        (if resolves 0%nat
         then [Lookup (apiEndpoint config) magnetURI (timeout config)
                      (customUserAgent config)]
         else [])) /\
  ((forall i : nat, resolves i = true) ->
   (forall apiResponse : json,
       lookup w = Some apiResponse ->
       reaches_formatter apiResponse = true -> printable apiResponse = true) ->
   middleware_with_sends resolves config w session lastRequestTime =
     middleware config w session lastRequestTime).
Proof.
  intros Hx Ht.
  assert (Hrun : middleware_with_sends resolves config w session lastRequestTime =
                 (fst (run_with_sends resolves config w session magnetURI), now w)).
  { unfold middleware_with_sends. rewrite Hx.
    destruct (Z.ltb_spec (now w - lastRequestTime) minInterval); [ lia | reflexivity ]. }
  split.
  - destruct (run_with_sends_shape resolves config w session magnetURI)
      as (rest & Hshape & Hfacts).
    exists rest. split; [ | exact Hfacts ].
    rewrite Hrun, Hshape. reflexivity.
  - intros Hall Hprint.
    rewrite Hrun, (run_with_sends_ideal resolves config w session magnetURI Hall Hprint).
    symmetry. exact (middleware_admitted config w session magnetURI lastRequestTime Hx Ht).
Qed.

Lemma admitted_run_shape_witness :
  (exists rest : list event,
      middleware_with_sends (fun i => negb (i =? 0)%nat) Sample.config
                            (Sample.world (Some Sample.three_screenshots))
                            Sample.session 0 =
        ((Send (quoted Sample.session placeholder_text) :: rest ++ [])%list, 10000) /\
      existsb is_send rest = true /\
      existsb is_delete rest = false /\
      existsb is_next rest = false /\
      List.filter is_lookup rest = []) /\
  middleware_with_sends (fun _ => true) Sample.config
                        (Sample.world (Some Sample.three_screenshots))
                        Sample.session 0 =
    middleware Sample.config (Sample.world (Some Sample.three_screenshots))
               Sample.session 0.
Proof.
  assert (Hle : minInterval <= now (Sample.world (Some Sample.three_screenshots)) - 0)
    by (vm_compute; discriminate).
  split.
  - exact (proj1 (admitted_run_shape (fun i => negb (i =? 0)%nat) Sample.config
                    (Sample.world (Some Sample.three_screenshots)) Sample.session
                    Sample.short_link 0 eq_refl Hle)).
  - apply (proj2 (admitted_run_shape (fun _ => true) Sample.config
                    (Sample.world (Some Sample.three_screenshots)) Sample.session
                    Sample.short_link 0 eq_refl Hle)).
    + intros i. reflexivity.
    + intros apiResponse Hl _. injection Hl as <-. reflexivity.
Defined.

Lemma no_next_in_downloads (urls : list string) :
  existsb is_next (map Download urls) = false.
Proof. induction urls as [ | url rest IH ]; [ reflexivity | exact IH ]. Qed.

Lemma no_next_in_sends (replies : list element) :
  existsb is_next (map Send replies) = false.
Proof. induction replies as [ | reply rest IH ]; [ reflexivity | exact IH ]. Qed.

(** X2: the middleware hands the message over to [next()] exactly when it
    extracts no link; it then does nothing else and leaves the throttle
    alone.  Once a link is extracted, no path reaches [next()]. *)
Theorem next_exactly_without_link (config : Config) (w : World) (session : Session)
        (lastRequestTime : Z) :
  (existsb is_next (fst (middleware config w session lastRequestTime)) = true
   <-> extract session = None) /\
  (extract session = None ->
   middleware config w session lastRequestTime = ([Next], lastRequestTime)).
Proof.
  assert (Hnone : extract session = None ->
                  middleware config w session lastRequestTime = ([Next], lastRequestTime)).
  { intros Hx. unfold middleware. rewrite Hx. reflexivity. }
  split; [ | exact Hnone ].
  split.
  - intros Hnext.
    destruct (extract session) as [magnetURI | ] eqn:Hx; [ | reflexivity ].
    exfalso.
    destruct (Z.lt_ge_cases (now w - lastRequestTime) minInterval) as [Ht | Ht].
    + rewrite (middleware_rejected config w session magnetURI lastRequestTime Hx Ht)
        in Hnext.
      discriminate Hnext.
    + rewrite (middleware_admitted config w session magnetURI lastRequestTime Hx Ht)
        in Hnext.
      destruct (resolve_shape config w session magnetURI)
        as [urls [replies [_ [_ Hrun]]]].
      rewrite Hrun in Hnext. cbn [fst] in Hnext.
      rewrite !existsb_app, no_next_in_downloads, no_next_in_sends in Hnext.
      destruct (placeholder w); discriminate Hnext.
  - intros Hx. rewrite (Hnone Hx). reflexivity.
Qed.

Lemma match_magnet_none (text : string) :
  contains_ci "magnet:?" text = false -> Platform.match_magnet text = None.
Proof.
  induction text as [ | c text IH ]; intros H.
  - reflexivity.
  - cbn [contains_ci] in H. apply orb_false_iff in H. destruct H as [Hhere Hrest].
    cbn [Platform.match_magnet]. rewrite Hhere. apply IH, Hrest.
Qed.

(** X1: a message whose text holds no [magnet:?], in any case of the letters, is
    handed over to [next()]: nothing is sent, no request is made, the
    throttle is not touched. *)
Theorem text_without_link_passes (config : Config) (w : World) (session : Session)
        (lastRequestTime : Z) :
  contains_ci "magnet:?" (String.concat EmptyString (content session)) = false ->
  middleware config w session lastRequestTime = ([Next], lastRequestTime).
Proof.
  intros Htext. unfold middleware, extract.
  rewrite (match_magnet_none _ Htext). reflexivity.
Qed.

Lemma text_without_link_passes_witness :
  middleware Sample.config (Sample.world None) Cases.chat_session 0 = ([Next], 0).
Proof.
  apply (text_without_link_passes Sample.config (Sample.world None) Cases.chat_session 0).
  reflexivity.
Defined.

(** ** The answers to each kind of response *)

Lemma returned_run (config : Config) (w : World) (session : Session)
      (magnetURI : string) (lastRequestTime : Z) (apiResponse : json) (t : list event) :
  extract session = Some magnetURI ->
  minInterval <= now w - lastRequestTime ->
  lookup w = Some apiResponse ->
  classify config w session magnetURI apiResponse = (t, Returned tt) ->
  middleware config w session lastRequestTime =
    (([Send (quoted session placeholder_text);
       Lookup (apiEndpoint config) magnetURI (timeout config) (customUserAgent config)]
      ++ t ++ fst (cleanup w session))%list, now w).
Proof.
  intros Hx Ht Hl Hc.
  rewrite (middleware_admitted config w session magnetURI lastRequestTime Hx Ht).
  rewrite (resolve_answered config w session magnetURI apiResponse _ _ Hl Hc).
  reflexivity.
Qed.

Lemma failed_run (config : Config) (w : World) (session : Session)
      (magnetURI : string) (lastRequestTime : Z) :
  extract session = Some magnetURI ->
  minInterval <= now w - lastRequestTime ->
  lookup w = None \/
  (exists apiResponse : json,
      lookup w = Some apiResponse /\
      classify config w session magnetURI apiResponse = ([], Thrown)) ->
  middleware config w session lastRequestTime =
    (([Send (quoted session placeholder_text);
       Lookup (apiEndpoint config) magnetURI (timeout config) (customUserAgent config)]
      ++ fst (on_error config w session magnetURI) ++ fst (cleanup w session))%list,
     now w).
Proof.
  intros Hx Ht Hfail.
  rewrite (middleware_admitted config w session magnetURI lastRequestTime Hx Ht).
  destruct Hfail as [Hl | [apiResponse [Hl Hc]]].
  - rewrite (resolve_rejected config w session magnetURI Hl). reflexivity.
  - rewrite (resolve_answered config w session magnetURI apiResponse _ _ Hl Hc).
    reflexivity.
Qed.

Lemma reported_error_has_body (apiResponse : json) :
  truthy (or_else (field apiResponse "error") (field apiResponse "message")) = true ->
  truthy apiResponse = true.
Proof. destruct apiResponse; try reflexivity; cbn; discriminate. Qed.

(** X6: a lookup that fails in transport (timeout, network, status): without
    [useLocalParsing] the single reply is the notice "network problem or API
    unavailable"; with it the local decoders run on the link, and the single
    reply is the reduced-form reply under the banner "API failed" when they
    recover a hash, the notice "local parsing failed too" when they do
    not. *)
Theorem transport_failure_falls_back (config : Config) (w : World) (session : Session)
        (magnetURI : string) (lastRequestTime : Z) :
  extract session = Some magnetURI ->
  minInterval <= now w - lastRequestTime ->
  lookup w = None ->
  middleware config w session lastRequestTime =
    (single_reply config w session magnetURI
       (if useLocalParsing config then
          match local_decode (url_api w) magnetURI with
          | Some localResult =>
              if truthy_text (hash localResult)
              then local_message failure_banner localResult
              else local_failure_text
          | None => local_failure_text
          end
        else unavailable_text),
     now w).
Proof.
  intros Hx Ht Hl.
  rewrite (failed_run config w session magnetURI lastRequestTime Hx Ht (or_introl Hl)).
  rewrite on_error_trace. reflexivity.
Qed.

Lemma transport_failure_falls_back_witness :
  middleware Sample.config (Sample.world None) Sample.session 0 =
    (single_reply Sample.config (Sample.world None) Sample.session Sample.short_link
                  (local_message failure_banner Sample.short_result), 10000) /\
  middleware Sample.without_local_parsing (Sample.world None) Sample.session 0 =
    (single_reply Sample.without_local_parsing (Sample.world None) Sample.session
                  Sample.short_link unavailable_text, 10000).
Proof.
  assert (Hle : minInterval <= now (Sample.world None) - 0) by (vm_compute; discriminate).
  split.
  - exact (transport_failure_falls_back Sample.config (Sample.world None) Sample.session
             Sample.short_link 0 eq_refl Hle eq_refl).
  - exact (transport_failure_falls_back Sample.without_local_parsing (Sample.world None)
             Sample.session Sample.short_link 0 eq_refl Hle eq_refl).
Defined.

(** X7: a response whose reported error ([error], or [message] when [error] is
    falsy) is truthy but is not a string (an object, a number, [true]) makes
    [toLowerCase] throw: the run is the run of a lookup that fails in
    transport, local fallback included. *)
Theorem non_text_error_is_transport_failure (config : Config) (w : World)
        (session : Session) (magnetURI : string) (lastRequestTime : Z)
        (apiResponse : json) :
  extract session = Some magnetURI ->
  minInterval <= now w - lastRequestTime ->
  lookup w = Some apiResponse ->
  truthy (or_else (field apiResponse "error") (field apiResponse "message")) = true ->
  (forall text : string,
      or_else (field apiResponse "error") (field apiResponse "message") <> JStr text) ->
  middleware config w session lastRequestTime =
    middleware config (with_lookup w None) session lastRequestTime.
Proof.
  intros Hx Ht Hl Htruthy Hnot.
  assert (Hc : classify config w session magnetURI apiResponse = ([], Thrown)).
  { unfold classify.
    rewrite (reported_error_has_body apiResponse Htruthy), Htruthy. cbn [negb].
    destruct (or_else (field apiResponse "error") (field apiResponse "message"));
      try reflexivity.
    exfalso. exact (Hnot s eq_refl). }
  rewrite (failed_run config w session magnetURI lastRequestTime Hx Ht
             (or_intror (ex_intro _ apiResponse (conj Hl Hc)))).
  rewrite (failed_run config (with_lookup w None) session magnetURI lastRequestTime
             Hx Ht (or_introl eq_refl)).
  reflexivity.
Qed.

Lemma non_text_error_is_transport_failure_witness :
  middleware Sample.config (Sample.world (Some Cases.structured_error)) Sample.session 0 =
    middleware Sample.config
               (with_lookup (Sample.world (Some Cases.structured_error)) None)
               Sample.session 0.
Proof.
  apply (non_text_error_is_transport_failure Sample.config
           (Sample.world (Some Cases.structured_error)) Sample.session
           Sample.short_link 0 Cases.structured_error).
  - reflexivity.
  - vm_compute. discriminate.
  - reflexivity.
  - reflexivity.
  - intros text. vm_compute. discriminate.
Defined.

(** X8: a reported error whose text names no quota ("quota", "limit",
    "frequent", "rate") is quoted to the user in the single reply
    "parse failed: text", whatever the configuration: [useLocalParsing] does
    not apply to it. *)
Theorem other_error_is_reported (config : Config) (w : World) (session : Session)
        (magnetURI : string) (lastRequestTime : Z) (apiResponse : json) (text : string) :
  extract session = Some magnetURI ->
  minInterval <= now w - lastRequestTime ->
  lookup w = Some apiResponse ->
  or_else (field apiResponse "error") (field apiResponse "message") = JStr text ->
  text <> EmptyString ->
  is_quota_error text = false ->
  middleware config w session lastRequestTime =
    (single_reply config w session magnetURI (failure_notice text), now w).
Proof.
  intros Hx Ht Hl Htext Hne Hquota.
  assert (Htruthy : truthy (JStr text) = true).
  { destruct text; [ contradiction Hne; reflexivity | reflexivity ]. }
  apply (returned_run config w session magnetURI lastRequestTime apiResponse
                      [Send (quoted session (failure_notice text))] Hx Ht Hl).
  unfold classify.
  rewrite (or_else_text_is_truthy_body apiResponse text Htext). cbn [negb].
  rewrite Htext, Htruthy, Hquota. reflexivity.
Qed.

Lemma other_error_is_reported_witness :
  middleware Sample.config (Sample.world (Some Cases.not_found)) Sample.session 0 =
    (single_reply Sample.config (Sample.world (Some Cases.not_found)) Sample.session
                  Sample.short_link "解析失败：torrent not found", 10000).
Proof.
  apply (other_error_is_reported Sample.config (Sample.world (Some Cases.not_found))
           Sample.session Sample.short_link 0 Cases.not_found "torrent not found").
  - reflexivity.
  - vm_compute. discriminate.
  - reflexivity.
  - reflexivity.
  - discriminate.
  - reflexivity.
Defined.

(** X9: a quota error that cannot be served locally: without [useLocalParsing]
    the single reply is the quota notice, which quotes the text and gives
    advice; with [useLocalParsing], when the local decoders recover no hash,
    it is the notice "local parsing failed too". *)
Theorem quota_error_without_fallback (config : Config) (w : World) (session : Session)
        (magnetURI : string) (lastRequestTime : Z) (apiResponse : json) (text : string) :
  extract session = Some magnetURI ->
  minInterval <= now w - lastRequestTime ->
  lookup w = Some apiResponse ->
  or_else (field apiResponse "error") (field apiResponse "message") = JStr text ->
  is_quota_error text = true ->
  (useLocalParsing config = false ->
   middleware config w session lastRequestTime =
     (single_reply config w session magnetURI (quota_notice text), now w)) /\
  (useLocalParsing config = true ->
   (forall localResult : local_result,
       local_decode (url_api w) magnetURI = Some localResult ->
       truthy_text (hash localResult) = false) ->
   middleware config w session lastRequestTime =
     (single_reply config w session magnetURI local_failure_text, now w)).
Proof.
  intros Hx Ht Hl Htext Hquota.
  assert (Hc : classify config w session magnetURI apiResponse =
               if useLocalParsing config
               then local_fallback quota_banner w session magnetURI
               else emit (Send (quoted session (quota_notice text)))).
  { unfold classify.
    rewrite (or_else_text_is_truthy_body apiResponse text Htext). cbn [negb].
    rewrite Htext, (is_quota_error_nonempty text Hquota), Hquota. reflexivity. }
  split.
  - intros Hlocal. rewrite Hlocal in Hc.
    exact (returned_run config w session magnetURI lastRequestTime apiResponse _
                        Hx Ht Hl Hc).
  - intros Hlocal Hnone. rewrite Hlocal in Hc.
    apply (returned_run config w session magnetURI lastRequestTime apiResponse
                        [Send (quoted session local_failure_text)] Hx Ht Hl).
    rewrite Hc. unfold local_fallback.
    destruct (local_decode (url_api w) magnetURI) as [localResult | ]; [ | reflexivity ].
    rewrite (Hnone localResult eq_refl). reflexivity.
Qed.

Lemma quota_error_without_fallback_witness :
  middleware Sample.without_local_parsing (Sample.world (Some Sample.rate_limited))
             Sample.session 0 =
    (single_reply Sample.without_local_parsing (Sample.world (Some Sample.rate_limited))
                  Sample.session Sample.short_link (quota_notice "rate limit exceeded"),
     10000).
Proof.
  assert (Hle : minInterval <= now (Sample.world (Some Sample.rate_limited)) - 0)
    by (vm_compute; discriminate).
  destruct (quota_error_without_fallback Sample.without_local_parsing
              (Sample.world (Some Sample.rate_limited)) Sample.session
              Sample.short_link 0 Sample.rate_limited "rate limit exceeded"
              eq_refl Hle eq_refl eq_refl eq_refl) as [Hnotice _].
  exact (Hnotice eq_refl).
Defined.

Lemma frequent_is_nonempty (s : string) :
  Str.includes (Str.toLowerCase s) "frequent" = true -> truthy (JStr s) = true.
Proof. destruct s; [ discriminate | reflexivity ]. Qed.

(** X10: a response without error whose [name] is a string that contains
    "frequent", in any case of the letters, is taken for a throttling
    message of the service: with a truthy [size], the single reply quotes
    the name as the reason of the failure, and nothing is formatted or
    downloaded. *)
Theorem frequent_name_is_an_error (config : Config) (w : World) (session : Session)
        (magnetURI : string) (lastRequestTime : Z) (apiResponse : json) (s : string) :
  extract session = Some magnetURI ->
  minInterval <= now w - lastRequestTime ->
  lookup w = Some apiResponse ->
  truthy apiResponse = true ->
  truthy (field apiResponse "error") = false ->
  truthy (field apiResponse "message") = false ->
  field apiResponse "name" = JStr s ->
  Str.includes (Str.toLowerCase s) "frequent" = true ->
  truthy (field apiResponse "size") = true ->
  middleware config w session lastRequestTime =
    (single_reply config w session magnetURI (failure_notice s), now w).
Proof.
  intros Hx Ht Hl Hbody Herror Hmessage Hname Hfrequent Hsize.
  apply (returned_run config w session magnetURI lastRequestTime apiResponse
                      [Send (quoted session (failure_notice s))] Hx Ht Hl).
  unfold classify, or_else.
  rewrite Hbody, Herror, Hmessage, Hname, Hsize, (frequent_is_nonempty s Hfrequent),
    Hfrequent.
  reflexivity.
Qed.

Lemma frequent_name_is_an_error_witness :
  middleware Sample.config (Sample.world (Some Cases.frequent_name)) Sample.session 0 =
    (single_reply Sample.config (Sample.world (Some Cases.frequent_name)) Sample.session
                  Sample.short_link "解析失败：Too Frequent requests", 10000).
Proof.
  apply (frequent_name_is_an_error Sample.config
           (Sample.world (Some Cases.frequent_name)) Sample.session Sample.short_link 0
           Cases.frequent_name "Too Frequent requests");
    solve [ reflexivity | vm_compute; discriminate ].
Defined.



(** X12: the regular expression of the middleware accepts the scheme in any case
    of its letters, the manual decoder only in lower case.  Where [URL] and
    [URLSearchParams] are missing, a link whose scheme is not written
    [magnet:?] in lower case is never decoded locally: after a failed
    lookup, with [useLocalParsing], the reply is the notice "local parsing
    failed too". *)
Theorem upper_case_scheme_is_not_decoded (config : Config) (w : World) (session : Session)
        (magnetURI : string) (lastRequestTime : Z) :
  extract session = Some magnetURI ->
  minInterval <= now w - lastRequestTime ->
  Str.startsWith magnetURI "magnet:?" = false ->
  url_api w = false ->
  lookup w = None ->
  useLocalParsing config = true ->
  local_decode (url_api w) magnetURI = None /\
  middleware config w session lastRequestTime =
    (single_reply config w session magnetURI local_failure_text, now w).
Proof.
  intros Hx Ht Hscheme Hapi Hl Hlocal.
  assert (Hdecode : local_decode (url_api w) magnetURI = None).
  { unfold local_decode, parseLocalMagnet, parseLocalMagnetManual.
    rewrite Hapi, Hscheme. reflexivity. }
  split; [ exact Hdecode | ].
  rewrite (failed_run config w session magnetURI lastRequestTime Hx Ht (or_introl Hl)).
  rewrite on_error_trace, Hlocal, Hdecode. reflexivity.
Qed.

Lemma upper_case_scheme_is_not_decoded_witness :
  local_decode false "MAGNET:?xt=urn:btih:abc" = None /\
  middleware Sample.config (Cases.bare_world 10000 None) Cases.upper_session 0 =
    (single_reply Sample.config (Cases.bare_world 10000 None) Cases.upper_session
                  "MAGNET:?xt=urn:btih:abc" local_failure_text, 10000).
Proof.
  apply (upper_case_scheme_is_not_decoded Sample.config (Cases.bare_world 10000 None)
           Cases.upper_session "MAGNET:?xt=urn:btih:abc" 0);
    solve [ reflexivity | vm_compute; discriminate ].
Defined.

(** ** More on [formatApiResponse] *)




Lemma imageUrl_http (item : json) (url : string) :
  imageUrl item = Some url -> Str.startsWith url "http" = true.
Proof.
  assert (Hself : forall url' : string,
             match item with
             | JStr t => if Str.startsWith t "http" then Some t else None
             | _ => None
             end = Some url' -> Str.startsWith url' "http" = true).
  { intros url' H. destruct item; try discriminate H.
    destruct (Str.startsWith s "http") eqn:E; [ | discriminate H ].
    injection H as <-. exact E. }
  unfold imageUrl.
  destruct (if truthy item then field item "screenshot" else JUndefined);
    try apply Hself.
  destruct (Str.startsWith s "http") eqn:E; [ | apply Hself ].
  intros H. injection H as <-. exact E.
Qed.

Lemma addresses_http (items : list json) :
  Forall (fun url => Str.startsWith url "http" = true) (addresses items).
Proof.
  induction items as [ | item rest IH ]; [ constructor | ].
  cbn [addresses flat_map].
  destruct (imageUrl item) as [url | ] eqn:E; [ | exact IH ].
  constructor; [ exact (imageUrl_http item url E) | exact IH ].
Qed.

Lemma addresses_cons (item : json) (rest : list json) :
  addresses (item :: rest) =
    (match imageUrl item with
     | Some url => [url]
     | None => []
     end ++ addresses rest)%list.
Proof. reflexivity. Qed.

Lemma addresses_length (items : list json) :
  (List.length (addresses items) <= List.length items)%nat.
Proof.
  induction items as [ | item rest IH ]; [ apply Nat.le_refl | ].
  rewrite addresses_cons. destruct (imageUrl item); cbn [app List.length]; lia.
Qed.

Lemma fetched_length (w : World) (items : list json) :
  forall index : nat,
    (List.length (fetched w index items) <= List.length (addresses items))%nat.
Proof.
  induction items as [ | item rest IH ]; intros index; [ apply Nat.le_refl | ].
  rewrite addresses_cons. cbn [fetched].
  destruct (imageUrl item) as [url | ]; [ | apply IH ].
  specialize (IH (S index)).
  destruct (download w index url); cbn [app List.length]; lia.
Qed.



(** X14: the loop over the screenshots does not stop at a request that
    rejects.  It requests exactly the addresses of the entries that carry
    one (an address starts with [http]), each once and in the order of the
    entries, whether the requests resolve or reject, and returns the images
    of those that resolve: at most one image per request, at most one
    request per entry.  When screenshots are not shown or not listed,
    [formatApiResponse] requests nothing. *)
Theorem screenshots_are_requested_in_order (w : World) (session : Session)
        (data : json) (config : Config) :
  fetch_images w 0 (array_items (field data "screenshots")) =
    (map Download (addresses (array_items (field data "screenshots"))),
     Returned (fetched w 0 (array_items (field data "screenshots")))) /\
  Forall (fun url => Str.startsWith url "http" = true)
         (addresses (array_items (field data "screenshots"))) /\
  (List.length (fetched w 0 (array_items (field data "screenshots")))
   <= List.length (addresses (array_items (field data "screenshots")))
   <= List.length (array_items (field data "screenshots")))%nat /\
  (hasScreenshots config data = false ->
   fst (formatApiResponse w session data config) = []).
Proof.
  split; [ | split; [ | split ] ].
  - rewrite (surjective_pairing (fetch_images w 0 _)).
    rewrite fetch_images_trace, fetch_images_returns. reflexivity.
  - apply addresses_http.
  - split; [ apply fetched_length | apply addresses_length ].
  - intros Hnone. rewrite formatApiResponse_trace, Hnone. reflexivity.
Qed.

Lemma screenshots_are_requested_in_order_witness :
  fetch_images (Sample.at_time 10000) 0
               (array_items (field Sample.three_screenshots "screenshots")) =
    (map Download ["https://img.example/1.jpg"; "https://img.example/2.jpg";
                   "https://img.example/3.jpg"],
     Returned []) /\
  fst (formatApiResponse (Sample.at_time 10000) Sample.session Sample.no_size
                         Sample.config) = [].
Proof.
  destruct (screenshots_are_requested_in_order (Sample.at_time 10000) Sample.session
              Sample.three_screenshots Sample.config) as [Hloop _].
  destruct (screenshots_are_requested_in_order (Sample.at_time 10000) Sample.session
              Sample.no_size Sample.config) as [_ [_ [_ Hnone]]].
  split; [ exact Hloop | exact (Hnone eq_refl) ].
Defined.




(** ** More on [formatBytes] *)

Lemma pow_1024 (n : Z) : 0 <= n -> 1024 ^ n = 2 ^ (10 * n).
Proof. intros Hn. rewrite Z.pow_mul_r by lia. reflexivity. Qed.

(** The index computed by [formatBytes] is below [n] exactly when the byte
    count is below [1024^n]. *)
Lemma index_below (b n : Z) :
  1 <= b -> 0 <= n -> (Z.log2 b / 10 < n <-> b < 1024 ^ n).
Proof.
  intros Hb Hn. rewrite (pow_1024 n Hn).
  pose proof (Z.log2_lt_pow2 b (10 * n) ltac:(lia)) as Hlog.
  split; intros H.
  - apply Hlog. pose proof (Z.div_mod (Z.log2 b) 10 ltac:(lia)).
    pose proof (Z.mod_pos_bound (Z.log2 b) 10 ltac:(lia)). lia.
  - apply Hlog in H. apply Z.div_lt_upper_bound; lia.
Qed.

Lemma index_nonneg (b : Z) : 0 <= Z.log2 b / 10.
Proof. apply Z.div_pos; [ apply Z.log2_nonneg | lia ]. Qed.

Lemma index_bounds (b : Z) :
  1 <= b -> 1024 ^ (Z.log2 b / 10) <= b < 1024 ^ (Z.log2 b / 10 + 1).
Proof.
  intros Hb. pose proof (index_nonneg b) as Hi.
  split.
  - destruct (Z.lt_ge_cases b (1024 ^ (Z.log2 b / 10))) as [Hlt | Hge]; [ | exact Hge ].
    apply (index_below b (Z.log2 b / 10) Hb Hi) in Hlt. lia.
  - apply (index_below b (Z.log2 b / 10 + 1) Hb); lia.
Qed.

Lemma toFixed2_rounds (num den : Z) :
  0 < den ->
  2 * den * toFixed2 num den <= 200 * num + den < 2 * den * (toFixed2 num den + 1).
Proof.
  intros Hden. unfold toFixed2.
  pose proof (Z.mul_div_le (200 * num + den) (2 * den) ltac:(lia)).
  pose proof (Z.mul_succ_div_gt (200 * num + den) (2 * den) ltac:(lia)).
  lia.
Qed.

Lemma formatBytes_positive (b : Z) :
  1 <= b ->
  formatBytes (Num b) =
    hundredths_text (toFixed2 b (1024 ^ (Z.log2 b / 10))) ++ " " ++
    or_undefined (nth_error sizes (Z.to_nat (Z.log2 b / 10))).
Proof.
  intros Hb. pose proof (index_nonneg b) as Hi.
  unfold formatBytes, format_scaled, floor_log_k, scaled_text, sizes_at, k.
  destruct (Z.ltb_spec 0 b) as [_ | Hneg]; [ | lia ].
  destruct (Z.ltb_spec (Z.log2 b / 10) 0) as [Hlt | _]; [ lia | ].
  destruct b as [ | p | p ]; try lia. reflexivity.
Qed.

(** X17: from 1 byte up to 1024 bytes short of [1024^5], [formatBytes] picks
    the unit of index [i] with [1024^i <= b < 1024^(i+1)], always inside the
    table, and shows [b / 1024^i] rounded to hundredths, halves upwards: a
    number from 1 to 1024 (1024 is reached by rounding, as in "1024 KB").
    The last bytes below [1024^5] are left out: there the quotient of the
    two logarithms, computed in double precision, can already round to 5
    (it does at [1024^5 - 1]), and the unit read is the missing one. *)
Theorem formatBytes_within_table (b : Z) :
  1 <= b <= 1024 ^ 5 - 1024 ->
  exists (i h : Z) (unit : string),
    0 <= i < 5 /\
    nth_error sizes (Z.to_nat i) = Some unit /\
    1024 ^ i <= b < 1024 ^ (i + 1) /\
    formatBytes (Num b) = hundredths_text h ++ " " ++ unit /\
    2 * 1024 ^ i * h <= 200 * b + 1024 ^ i < 2 * 1024 ^ i * (h + 1) /\
    100 <= h <= 102400.
Proof.
  intros [Hlow Hmargin].
  assert (Hhigh : b < 1024 ^ 5) by lia.
  pose proof (index_nonneg b) as Hi.
  pose proof (proj2 (index_below b 5 Hlow ltac:(lia)) Hhigh) as Hi5.
  pose proof (index_bounds b Hlow) as Hb.
  set (i := Z.log2 b / 10) in *.
  assert (Hden : 0 < 1024 ^ i) by (apply Z.pow_pos_nonneg; lia).
  pose proof (toFixed2_rounds b (1024 ^ i) Hden) as Hround.
  assert (Hnext : 1024 ^ (i + 1) = 1024 * 1024 ^ i).
  { rewrite Z.pow_add_r by lia. lia. }
  assert (Hunit : exists unit, nth_error sizes (Z.to_nat i) = Some unit).
  { destruct (nth_error sizes (Z.to_nat i)) as [unit | ] eqn:E; [ exists unit; reflexivity | ].
    apply nth_error_None in E. cbn [sizes List.length] in E. lia. }
  destruct Hunit as [unit Hunit].
  exists i, (toFixed2 b (1024 ^ i)), unit.
  split; [ lia | split; [ exact Hunit | split; [ exact Hb | split; [ | split ] ] ] ].
  - rewrite (formatBytes_positive b Hlow). fold i. rewrite Hunit. reflexivity.
  - exact Hround.
  - set (d := 1024 ^ i) in *. set (h := toFixed2 b d) in *. nia.
Qed.

Lemma formatBytes_within_table_witness :
  exists (i h : Z) (unit : string),
    0 <= i < 5 /\
    nth_error sizes (Z.to_nat i) = Some unit /\
    1024 ^ i <= 1048575 < 1024 ^ (i + 1) /\
    formatBytes (Num 1048575) = hundredths_text h ++ " " ++ unit /\
    2 * 1024 ^ i * h <= 200 * 1048575 + 1024 ^ i < 2 * 1024 ^ i * (h + 1) /\
    100 <= h <= 102400.
Proof. apply (formatBytes_within_table 1048575). split; discriminate. Defined.

(** X18: a negative byte count has no logarithm: every part of the text is the
    literal of a missing value. *)
Theorem formatBytes_negative (b : Z) :
  b < 0 -> formatBytes (Num b) = "NaN undefined".
Proof. intros Hb. destruct b as [ | p | p ]; try lia. reflexivity. Qed.

Lemma formatBytes_negative_witness : formatBytes (Num (-5)) = "NaN undefined".
Proof. apply (formatBytes_negative (-5)). reflexivity. Defined.

Lemma variant_formatBytes_positive (b : Z) :
  1 <= b ->
  Variant.formatBytes (Num b) =
    hundredths_text (toFixed2 b (1024 ^ (Z.log2 b / 10))) ++ " " ++
    or_undefined (nth_error Variant.sizes (Z.to_nat (Z.log2 b / 10))).
Proof.
  intros Hb. pose proof (index_nonneg b) as Hi.
  unfold Variant.formatBytes, floor_log_k, scaled_text, Variant.sizes_at, k.
  destruct (Z.ltb_spec 0 b) as [_ | Hneg]; [ | lia ].
  destruct (Z.ltb_spec (Z.log2 b / 10) 0) as [Hlt | _]; [ lia | ].
  destruct b as [ | p | p ]; try lia. reflexivity.
Qed.

Lemma index_is (b c : Z) :
  1 <= b -> 0 <= c -> 1024 ^ c <= b < 1024 ^ (c + 1) -> Z.log2 b / 10 = c.
Proof.
  intros Hb Hc [Hlow Hhigh].
  apply (index_below b (c + 1) Hb ltac:(lia)) in Hhigh.
  destruct (Z.lt_ge_cases (Z.log2 b / 10) c) as [Hlt | Hge]; [ | lia ].
  apply (index_below b c Hb Hc) in Hlt. lia.
Qed.

(** X19: the unit table across the source files.  The [formatBytes] of the two
    other files and the one of [index.ts] show the same text from 1024 bytes
    up to 1024 bytes short of [1024^5]; below 1024 bytes the unit is "Bytes"
    there and "B" in [index.ts]; from [1024^5] to just below [2^53] (the
    integers a double holds exactly) the unit is "PB" there and is missing
    in [index.ts].  The last bytes below [1024^5] are left out, where the
    index computed in double precision is already 5. *)
Theorem unit_tables_compared (b : Z) :
  (1 <= b < 1024 ->
   exists text : string,
     Variant.formatBytes (Num b) = text ++ " Bytes" /\
     formatBytes (Num b) = text ++ " B") /\
  (1024 <= b <= 1024 ^ 5 - 1024 -> Variant.formatBytes (Num b) = formatBytes (Num b)) /\
  (1024 ^ 5 <= b < 2 ^ 53 ->
   exists text : string,
     Variant.formatBytes (Num b) = text ++ " PB" /\
     formatBytes (Num b) = text ++ " undefined").
Proof.
  split; [ | split ].
  - intros [Hlow Hhigh].
    rewrite (variant_formatBytes_positive b Hlow), (formatBytes_positive b Hlow).
    rewrite (index_is b 0 Hlow ltac:(lia) ltac:(split; [ lia | exact Hhigh ])).
    eexists. split; reflexivity.
  - intros [Hlow Hmargin].
    assert (Hhigh : b < 1024 ^ 5) by lia.
    assert (Hb : 1 <= b) by lia.
    rewrite (variant_formatBytes_positive b Hb), (formatBytes_positive b Hb).
    pose proof (proj2 (index_below b 5 Hb ltac:(lia)) Hhigh) as Hi5.
    assert (Hi1 : 1 <= Z.log2 b / 10).
    { destruct (Z.lt_ge_cases (Z.log2 b / 10) 1) as [Hlt | Hge]; [ | exact Hge ].
      apply (index_below b 1 Hb ltac:(lia)) in Hlt. change (1024 ^ 1) with 1024 in Hlt.
      lia. }
    assert (Hcases : Z.log2 b / 10 = 1 \/ Z.log2 b / 10 = 2 \/
                     Z.log2 b / 10 = 3 \/ Z.log2 b / 10 = 4) by lia.
    destruct Hcases as [-> | [-> | [-> | ->]]]; reflexivity.
  - intros [Hlow Hhigh].
    assert (Hb : 1 <= b) by (assert (0 < 1024 ^ 5) by reflexivity; lia).
    assert (Hhigh6 : b < 1024 ^ (5 + 1)).
    { assert (2 ^ 53 < 1024 ^ (5 + 1)) by reflexivity. lia. }
    rewrite (variant_formatBytes_positive b Hb), (formatBytes_positive b Hb).
    rewrite (index_is b 5 Hb ltac:(lia) (conj Hlow Hhigh6)).
    eexists. split; reflexivity.
Qed.

Lemma unit_tables_compared_witness :
  (exists text : string,
      Variant.formatBytes (Num 512) = text ++ " Bytes" /\
      formatBytes (Num 512) = text ++ " B") /\
  Variant.formatBytes (Num 1536) = formatBytes (Num 1536) /\
  (exists text : string,
      Variant.formatBytes (Num (3 * 1024 ^ 5)) = text ++ " PB" /\
      formatBytes (Num (3 * 1024 ^ 5)) = text ++ " undefined").
Proof.
  split; [ | split ].
  - apply (unit_tables_compared 512). split; reflexivity || discriminate.
  - apply (unit_tables_compared 1536). split; reflexivity || discriminate.
  - apply (unit_tables_compared (3 * 1024 ^ 5)). split; reflexivity || discriminate.
Defined.

(** ** Successive runs *)

(** X5: over any succession of runs, whatever the messages and the clock, two
    triggers admitted in a row have throttle checks at least [minInterval]
    apart, the first one at least [minInterval] after the initial value of
    [lastRequestTime]; and [lastRequestTime] ends as the time of the last
    admitted trigger.  (These are the times of the checks: the lookup of an
    admitted run starts after its placeholder is sent.) *)
Theorem admitted_triggers_are_spaced (config : Config) (inputs : list (World * Session))
        (lastRequestTime : Z) :
  spaced lastRequestTime (admitted_times config inputs lastRequestTime) /\
  snd (serve config inputs lastRequestTime) =
    last_time lastRequestTime (admitted_times config inputs lastRequestTime).
Proof.
  revert lastRequestTime.
  induction inputs as [ | [w session] rest IH ]; intros lastRequestTime.
  - split; [ exact I | reflexivity ].
  - cbn [serve admitted_times].
    assert (Hstate : (admitted w session lastRequestTime = true /\
                      minInterval <= now w - lastRequestTime /\
                      snd (middleware config w session lastRequestTime) = now w) \/
                     (admitted w session lastRequestTime = false /\
                      snd (middleware config w session lastRequestTime) = lastRequestTime)).
    { unfold admitted, middleware.
      destruct (extract session) as [magnetURI | ]; [ | right; split; reflexivity ].
      destruct (Z.ltb_spec (now w - lastRequestTime) minInterval) as [Ht | Ht].
      - right. split; reflexivity.
      - left. split; [ reflexivity | split; [ exact Ht | reflexivity ] ]. }
    destruct (middleware config w session lastRequestTime) as [trace t].
    cbn [snd] in Hstate |- *.
    specialize (IH t).
    destruct (serve config rest t) as [traces final]. cbn [snd] in IH |- *.
    destruct Hstate as [[Hadmitted [Hgap Ht]] | [Hadmitted Ht]];
      rewrite Hadmitted; subst t.
    + cbn [spaced last_time]. destruct IH as [Hspaced Hfinal].
      split; [ split; [ exact Hgap | exact Hspaced ] | exact Hfinal ].
    + exact IH.
Qed.

(** ** More on the local decoders *)

Lemma manual_loop_fails (pairs : list string) (entry : string) :
  In entry pairs ->
  (forall result : local_result, manual_step result entry = None) ->
  forall result : local_result, manual_loop pairs result = None.
Proof.
  intros Hin Hfail.
  induction pairs as [ | first rest IH ]; intros result; [ contradiction Hin | ].
  cbn [manual_loop].
  destruct (manual_step result first) as [result' | ] eqn:Hstep; [ | reflexivity ].
  destruct Hin as [-> | Hin].
  - rewrite Hfail in Hstep. discriminate Hstep.
  - apply (IH Hin).
Qed.

(** X20: one malformed escape gives up the whole manual decoding: when a
    parameter of the link has a non-empty value (the text between its first
    and second equals sign) on which [decodeURIComponent] throws, the manual
    decoder returns [null], even if the parameter is none of those it reads
    and the hash is well formed. *)
Theorem manual_decoder_rejects_bad_escape (magnetURI entry key value : string) :
  In entry (Str.split "&" (Str.drop 8 magnetURI)) ->
  split_key_value entry = (key, Some value) ->
  value <> EmptyString ->
  Platform.decodeURIComponent value = None ->
  parseLocalMagnetManual magnetURI = None.
Proof.
  intros Hin Hsplit Hvalue Hdecode.
  unfold parseLocalMagnetManual.
  destruct (Str.startsWith magnetURI "magnet:?"); cbn [negb]; [ | reflexivity ].
  rewrite (manual_loop_fails _ entry Hin); [ reflexivity | ].
  intros result. unfold manual_step. rewrite Hsplit.
  destruct value as [ | c value ]; [ contradiction Hvalue; reflexivity | ].
  cbn [truthy_text Str.is_empty negb]. rewrite Hdecode. reflexivity.
Qed.

Lemma manual_decoder_rejects_bad_escape_witness :
  parseLocalMagnetManual Cases.bad_escape_link = None.
Proof.
  apply (manual_decoder_rejects_bad_escape Cases.bad_escape_link "ws=%zz" "ws" "%zz").
  - vm_compute. right. left. reflexivity.
  - reflexivity.
  - discriminate.
  - reflexivity.
Defined.

Lemma lower_letter_is_scheme_char (l c : ascii) :
  Platform.between 97 (Str.code l) 122 = true ->
  Ascii.eqb l (Str.lower_char c) = true ->
  Platform.is_c0_or_space c = false /\
  Platform.is_tab_or_newline c = false /\
  Platform.is_alpha c = true /\
  Platform.is_scheme_char c = true /\
  (Str.code c =? 58)%nat = false.
Proof.
  intros Hl Heq. apply Ascii.eqb_eq in Heq. subst l.
  destruct c as [[] [] [] [] [] [] [] []];
    try discriminate Hl; repeat split; reflexivity.
Qed.

Lemma lower_char_punctuation (l c : ascii) :
  Platform.between 58 (Str.code l) 63 = true ->
  Ascii.eqb l (Str.lower_char c) = true ->
  c = l.
Proof.
  intros Hl Heq. apply Ascii.eqb_eq in Heq. subst l.
  destruct c as [[] [] [] [] [] [] [] []]; try discriminate Hl; reflexivity.
Qed.

Lemma strip_trailing_cons (c : ascii) (s : string) :
  Platform.is_c0_or_space c = false ->
  Platform.strip_trailing (String c s) = String c (Platform.strip_trailing s).
Proof.
  intros Hc. cbn [Platform.strip_trailing]. rewrite Hc.
  destruct (Platform.strip_trailing s); reflexivity.
Qed.

(** The text [URL_search] parses, for an input that starts with a character
    that is no control, space, tab or newline. *)
Lemma cleaned_cons (c : ascii) (s : string) :
  Platform.is_c0_or_space c = false ->
  Platform.is_tab_or_newline c = false ->
  Platform.filter (fun c => negb (Platform.is_tab_or_newline c))
                  (Platform.strip_trailing (String c s)) =
  String c (Platform.filter (fun c => negb (Platform.is_tab_or_newline c))
                            (Platform.strip_trailing s)).
Proof.
  intros Hc Ht. rewrite (strip_trailing_cons c s Hc).
  cbn [Platform.filter]. rewrite Ht. reflexivity.
Qed.

Lemma prefix_ci_cons (a : ascii) (p s : string) :
  Platform.prefix_ci (String a p) s = true ->
  exists (b : ascii) (s' : string),
    s = String b s' /\
    Ascii.eqb a (Str.lower_char b) = true /\
    Platform.prefix_ci p s' = true.
Proof.
  destruct s as [ | b s' ]; [ discriminate | ].
  cbn [Platform.prefix_ci]. intros H. apply andb_true_iff in H.
  exists b, s'. split; [ reflexivity | exact H ].
Qed.

(** [new URL] does not throw on a link that starts with [magnet:?], in any
    case of the letters. *)
Lemma URL_search_magnet (magnetURI : string) :
  Platform.prefix_ci "magnet:?" magnetURI = true ->
  exists search : string, Platform.URL_search magnetURI = Some search.
Proof.
  intros H.
  apply prefix_ci_cons in H. destruct H as (c1 & s1 & -> & ? & H).
  apply prefix_ci_cons in H. destruct H as (c2 & s2 & -> & ? & H).
  apply prefix_ci_cons in H. destruct H as (c3 & s3 & -> & ? & H).
  apply prefix_ci_cons in H. destruct H as (c4 & s4 & -> & ? & H).
  apply prefix_ci_cons in H. destruct H as (c5 & s5 & -> & ? & H).
  apply prefix_ci_cons in H. destruct H as (c6 & s6 & -> & ? & H).
  apply prefix_ci_cons in H. destruct H as (c7 & s7 & -> & ? & H).
  apply prefix_ci_cons in H. destruct H as (c8 & rest & -> & ? & _).
  repeat match goal with
         | Hc : Ascii.eqb ?l (Str.lower_char ?c) = true |- _ =>
             first [ pose proof (lower_letter_is_scheme_char l c eq_refl Hc)
                       as (? & ? & ? & ? & ?)
                   | pose proof (lower_char_punctuation l c eq_refl Hc); subst c ];
             clear Hc
         end.
  unfold Platform.URL_search.
  match goal with
  | Hc : Platform.is_c0_or_space c1 = false |- _ =>
      cbn [Platform.strip_leading]; rewrite Hc
  end.
  repeat (rewrite cleaned_cons by (assumption || reflexivity)).
  match goal with
  | Ha : Platform.is_alpha c1 = true |- _ => rewrite Ha
  end.
  cbn [Platform.after_scheme].
  repeat match goal with
         | Hk : (Str.code ?c =? 58)%nat = false,
           Hs : Platform.is_scheme_char ?c = true |- _ =>
             rewrite Hk, Hs; clear Hk Hs
         end.
  assert (Hcolon : (Str.code ":" =? 58)%nat = true) by reflexivity.
  rewrite Hcolon. cbn [Str.cut Ascii.eqb Bool.eqb].
  destruct (Str.cut "#" _) as [before_fragment fragment].
  cbn [Str.cut Ascii.eqb Bool.eqb].
  destruct (Str.is_empty before_fragment); eexists; reflexivity.
Qed.

(** X21: where [URL] and [URLSearchParams] exist, the structured decoder returns
    a result on every link the middleware extracts, but for one case: the
    display name, already decoded once by [URLSearchParams], is not empty and
    [decodeURIComponent], applied to it a second time, throws (a name with
    an escaped percent sign, for instance).  Only then does the fallback
    reach the manual decoder. *)
Theorem structured_decoder_fails_on_the_name_only (session : Session)
        (magnetURI : string) :
  extract session = Some magnetURI ->
  exists search : string,
    Platform.URL_search magnetURI = Some search /\
    (parseLocalMagnet true magnetURI = None <->
     exists dn : string,
       Platform.get (Platform.URLSearchParams search) "dn" = Some dn /\
       dn <> EmptyString /\
       Platform.decodeURIComponent dn = None).
Proof.
  intros Hx.
  destruct (extract_magnet_scheme session magnetURI Hx) as [Hscheme _].
  destruct (URL_search_magnet magnetURI Hscheme) as [search Hsearch].
  exists search. split; [ exact Hsearch | ].
  unfold parseLocalMagnet. cbn [negb]. rewrite Hsearch.
  destruct (Platform.get (Platform.URLSearchParams search) "dn") as [dn | ].
  - destruct dn as [ | c dn ]; cbn [truthy_text Str.is_empty negb].
    + split; [ discriminate | ].
      intros [dn' [Hdn' [Hne _]]]. injection Hdn' as <-. contradiction Hne; reflexivity.
    + destruct (Platform.decodeURIComponent (String c dn)) as [decoded | ] eqn:Hd.
      * split; [ discriminate | ].
        intros [dn' [Hdn' [_ Hfail]]]. injection Hdn' as <-.
        rewrite Hd in Hfail. discriminate Hfail.
      * split; [ | reflexivity ].
        intros _. exists (String c dn).
        split; [ reflexivity | split; [ discriminate | exact Hd ] ].
  - cbn [truthy_text]. split; [ discriminate | ].
    intros [dn [Hdn _]]. discriminate Hdn.
Qed.

Lemma structured_decoder_fails_on_the_name_only_witness :
  exists search : string,
    Platform.URL_search "magnet:?xt=urn:btih:abc&dn=100%25" = Some search /\
    (parseLocalMagnet true "magnet:?xt=urn:btih:abc&dn=100%25" = None <->
     exists dn : string,
       Platform.get (Platform.URLSearchParams search) "dn" = Some dn /\
       dn <> EmptyString /\
       Platform.decodeURIComponent dn = None).
Proof.
  apply (structured_decoder_fails_on_the_name_only Cases.percent_session
           "magnet:?xt=urn:btih:abc&dn=100%25").
  reflexivity.
Defined.

(** ** The extracted link, the text of the replies *)

Lemma append_assoc (a b c : string) : (a ++ b) ++ c = a ++ b ++ c.
Proof. induction a as [ | x a IH ]; [ reflexivity | cbn; rewrite IH; reflexivity ]. Qed.

Lemma length_append (a b : string) :
  String.length (a ++ b) = (String.length a + String.length b)%nat.
Proof. induction a as [ | x a IH ]; [ reflexivity | cbn; rewrite IH; reflexivity ]. Qed.

Lemma take_drop (n : nat) (s : string) : Platform.take n s ++ Str.drop n s = s.
Proof.
  revert s. induction n as [ | n IH ]; intros s; [ reflexivity | ].
  destruct s as [ | c s ]; [ reflexivity | ].
  cbn. rewrite IH. reflexivity.
Qed.

Lemma take_nonspace_split (s : string) :
  exists after : string,
    s = Platform.take_nonspace s ++ after /\
    (after = EmptyString \/ Platform.starts_with_space after = true).
Proof.
  induction s as [ | c s IH ].
  - exists EmptyString. split; [ reflexivity | left; reflexivity ].
  - cbn [Platform.take_nonspace].
    destruct (Platform.starts_with_space (String c s)) eqn:E.
    + exists (String c s). split; [ reflexivity | right; exact E ].
    + destruct IH as [after [Hs Hafter]].
      exists after. split; [ | exact Hafter ].
      cbn. rewrite <- Hs. reflexivity.
Qed.

Lemma take_nonspace_clean (s : string) :
  forall before after : string,
    Platform.take_nonspace s = before ++ after ->
    Platform.starts_with_space after = false.
Proof.
  induction s as [ | c s IH ]; intros before after H.
  - destruct before; destruct after; try discriminate H; reflexivity.
  - cbn [Platform.take_nonspace] in H.
    destruct (Platform.starts_with_space (String c s)) eqn:E.
    + destruct before; destruct after; try discriminate H; reflexivity.
    + destruct before as [ | b before ].
      * cbn in H. subst after.
        unfold Platform.starts_with_space in *.
        assert (Hws : Platform.ws_len (String c (Platform.take_nonspace s)) =
                      Platform.ws_len (String c s) \/
                      Platform.ws_len (String c (Platform.take_nonspace s)) = 0%nat).
        { clear IH. destruct s as [ | c2 s ]; [ left; reflexivity | ].
          cbn [Platform.take_nonspace].
          destruct (Platform.starts_with_space (String c2 s)) eqn:E2.
          - cbn [Platform.ws_len].
            destruct (Platform.between 9 (Str.code c) 13 || (Str.code c =? 32)%nat);
              [ left; reflexivity | right; reflexivity ].
          - destruct s as [ | c3 s ]; [ left; reflexivity | ].
            cbn [Platform.take_nonspace].
            destruct (Platform.starts_with_space (String c3 s)).
            + cbn [Platform.ws_len].
              destruct (Platform.between 9 (Str.code c) 13 || (Str.code c =? 32)%nat);
                [ left; reflexivity | ].
              destruct ((Str.code c =? 194)%nat && (Str.code c2 =? 160)%nat);
                [ left; reflexivity | right; reflexivity ].
            + left. reflexivity. }
        destruct Hws as [-> | ->]; [ exact E | reflexivity ].
      * cbn in H. injection H as _ H. exact (IH before after H).
Qed.

Lemma match_magnet_cons (c : ascii) (text : string) :
  Platform.match_magnet (String c text) =
    if Platform.prefix_ci "magnet:?" (String c text) then
      if Str.is_empty (Platform.take_nonspace (Str.drop 8 (String c text)))
      then Platform.match_magnet text
      else Some (Platform.take 8 (String c text)
                 ++ Platform.take_nonspace (Str.drop 8 (String c text)))
    else Platform.match_magnet text.
Proof.
  cbn [Platform.match_magnet].
  destruct (Platform.prefix_ci "magnet:?" (String c text)); [ | reflexivity ].
  destruct (Str.is_empty (Platform.take_nonspace (Str.drop 8 (String c text))));
    reflexivity.
Qed.

(** X3: the link the middleware works on is a piece of the text of the message:
    it starts at an occurrence of [magnet:?] (in any case of the letters),
    holds at least one more character and no white space, ends at the end of
    the text or before a white space, and contains [xt=urn:btih:] as
    written. *)
Theorem extracted_link_is_a_piece_of_the_text (session : Session) (magnetURI : string) :
  extract session = Some magnetURI ->
  exists before after : string,
    String.concat EmptyString (content session) = before ++ magnetURI ++ after /\
    (after = EmptyString \/ Platform.starts_with_space after = true) /\
    Platform.prefix_ci "magnet:?" magnetURI = true /\
    (8 < String.length magnetURI)%nat /\
    (forall left right : string,
        Str.drop 8 magnetURI = left ++ right ->
        Platform.starts_with_space right = false) /\
    Str.includes magnetURI "xt=urn:btih:" = true.
Proof.
  unfold extract. intros H.
  destruct (Platform.match_magnet (concat EmptyString (content session)))
    as [m | ] eqn:Hm; [ | discriminate H ].
  destruct (Str.includes m "xt=urn:btih:") eqn:Hi; [ | discriminate H ].
  injection H as <-.
  generalize dependent (concat EmptyString (content session)). intros text.
  induction text as [ | c text IH ]; intros Hm.
  - discriminate Hm.
  - rewrite match_magnet_cons in Hm.
    assert (Hrec : Platform.match_magnet text = Some m ->
                   exists before after : string,
                     String c text = before ++ m ++ after /\
                     (after = EmptyString \/ Platform.starts_with_space after = true) /\
                     Platform.prefix_ci "magnet:?" m = true /\
                     (8 < String.length m)%nat /\
                     (forall left right : string,
                         Str.drop 8 m = left ++ right ->
                         Platform.starts_with_space right = false) /\
                     Str.includes m "xt=urn:btih:" = true).
    { intros Hrest. destruct (IH Hrest) as (before & after & Htext & Hrest').
      exists (String c before), after. split; [ | exact Hrest' ].
      cbn. rewrite <- Htext. reflexivity. }
    clear IH. remember (String c text) as full eqn:Hfull. clear Hfull.
    destruct (Platform.prefix_ci "magnet:?" full) eqn:Hp; [ | exact (Hrec Hm) ].
    destruct (Platform.take_nonspace (Str.drop 8 full)) as [ | r run ] eqn:Hrun;
      [ exact (Hrec Hm) | ].
    change (Str.is_empty (String r run)) with false in Hm. cbv iota in Hm.
    assert (Hlink : m = Platform.take 8 full ++ String r run) by congruence.
    subst m. clear Hm.
    destruct (take_nonspace_split (Str.drop 8 full)) as (after & Hsplit & Hafter).
    rewrite Hrun in Hsplit.
    assert (Hlen : String.length (Platform.take 8 full) = 8%nat).
    { apply prefix_ci_cons in Hp. destruct Hp as (c1 & s1 & -> & _ & Hp).
      apply prefix_ci_cons in Hp. destruct Hp as (c2 & s2 & -> & _ & Hp).
      apply prefix_ci_cons in Hp. destruct Hp as (c3 & s3 & -> & _ & Hp).
      apply prefix_ci_cons in Hp. destruct Hp as (c4 & s4 & -> & _ & Hp).
      apply prefix_ci_cons in Hp. destruct Hp as (c5 & s5 & -> & _ & Hp).
      apply prefix_ci_cons in Hp. destruct Hp as (c6 & s6 & -> & _ & Hp).
      apply prefix_ci_cons in Hp. destruct Hp as (c7 & s7 & -> & _ & Hp).
      apply prefix_ci_cons in Hp. destruct Hp as (c8 & s8 & -> & _ & _).
      reflexivity. }
    assert (Hdrop : forall t : string, Str.drop 8 (Platform.take 8 full ++ t) = t).
    { intros t. revert Hlen. generalize (Platform.take 8 full).
      intros p Hp8.
      do 8 (destruct p as [ | ? p ]; [ discriminate Hp8 | ]).
      destruct p; [ reflexivity | discriminate Hp8 ]. }
    exists EmptyString, after.
    split; [ | split; [ exact Hafter | split; [ | split; [ | split; [ | exact Hi ] ] ] ] ].
    + cbn [append]. rewrite <- (take_drop 8 full) at 1.
      rewrite Hsplit, append_assoc. reflexivity.
    + exact (prefix_ci_take "magnet:?" full _ Hp).
    + rewrite length_append, Hlen. cbn [String.length]. lia.
    + intros left right Hpieces. rewrite Hdrop, <- Hrun in Hpieces.
      exact (take_nonspace_clean _ left right Hpieces).
Qed.

Lemma extracted_link_is_a_piece_of_the_text_witness :
  exists before after : string,
    String.concat EmptyString (content Sample.session) =
      before ++ Sample.short_link ++ after /\
    (after = EmptyString \/ Platform.starts_with_space after = true) /\
    Platform.prefix_ci "magnet:?" Sample.short_link = true /\
    (8 < String.length Sample.short_link)%nat /\
    (forall left right : string,
        Str.drop 8 Sample.short_link = left ++ right ->
        Platform.starts_with_space right = false) /\
    Str.includes Sample.short_link "xt=urn:btih:" = true.
Proof.
  apply (extracted_link_is_a_piece_of_the_text Sample.session Sample.short_link).
  reflexivity.
Defined.



Lemma next_exactly_without_link_witness :
  existsb is_next (fst (middleware Sample.config (Sample.world None)
                                   Cases.chat_session 0)) = true /\
  middleware Sample.config (Sample.world None) Cases.chat_session 0 = ([Next], 0).
Proof.
  destruct (next_exactly_without_link Sample.config (Sample.world None)
                                      Cases.chat_session 0) as [[_ Hnext] Hrun].
  split; [ exact (Hnext eq_refl) | exact (Hrun eq_refl) ].
Defined.


(** ** Triggers after a rejected one *)

(** C5 fails as stated: a trigger at 10000 is admitted, one at 12999 is
    rejected and leaves [lastRequestTime] at 10000, and the trigger at
    13000, 1 ms after the rejected one, is admitted: it makes the lookup and
    writes its time. *)
Lemma trigger_after_a_rejected_one_is_admitted :
  snd (middleware Sample.config (Sample.at_time 10000) Sample.session 0) = 10000 /\
  middleware Sample.config (Sample.at_time 12999) Sample.session 10000 =
    ([Send (quoted Sample.session "请求过于频繁，请等待 1 秒后再试")], 10000) /\
  13000 - 12999 < minInterval /\
  existsb is_lookup
          (fst (middleware Sample.config (Sample.at_time 13000) Sample.session 10000))
    = true /\
  snd (middleware Sample.config (Sample.at_time 13000) Sample.session 10000) = 13000.
Proof. repeat split; vm_compute; reflexivity. Qed.
